(** * The architecture-diagram emitter [gen_drawio.py]

    The program is a flat script: it binds [xml] to one literal string (a
    draw.io document), creates the output directory, writes the string to
    a fixed path and prints a confirmation.  This development embeds

    - the literal itself ([Document.xml]),
    - a reader for the XML subset the literal is written in ([Reader]),
      through which the node and edge records of the document are
      observed ([Diagram]),
    - the file-system and process effects of the library calls the
      script makes ([Posix]) and the script itself ([Script]),

    states how a run can end ([Behaviour]), and proves the properties of
    the emitted document ([DiagramFacts]) and of a run ([PosixFacts],
    [ScriptFacts]). *)

From Stdlib Require Import Ascii String.
From stdpp Require Import base option list strings gmap.

Local Open Scope string_scope.

(** ** The document literal *)

Module Document.

(** The double-quote character.  A Rocq string literal cannot hold it
    undoubled, so the literal below is transcribed with an apostrophe in
    the place of every double quote (the source literal holds neither an
    apostrophe, nor a backslash, nor a brace, so the f-string has no
    replacement field and no escape), and [requote] puts the double
    quotes back. *)
Definition dquote : ascii := "034"%char.
Definition apostrophe : ascii := "039"%char.

Fixpoint requote (s : string) : string :=
  match s with
  | EmptyString => EmptyString
  | String c rest =>
      String (if Ascii.eqb c apostrophe then dquote else c) (requote rest)
  end.

(** Lines 3-144 of the source: everything between the opening and the
    closing triple quote, trailing blanks and the final newline
    included. *)
Definition xml_text : string :=
"<mxfile host='app.diagrams.net' modified='2026-02-22T00:00:00.000Z' agent='antigravity' version='21.0.0' type='device'>
  <diagram id='diagram_1' name='Architecture'>
    <mxGraphModel dx='1200' dy='800' grid='1' gridSize='10' guides='1' tooltips='1' connect='1' arrows='1' fold='1' page='1' pageScale='1' pageWidth='1169' pageHeight='827' background='#ffffff' math='0' shadow='0'>
      <root>
        <mxCell id='0' />
        <mxCell id='1' parent='0' />
        
        <!-- App Pods -->
        <mxCell id='app1' value='App Pod 1' style='rounded=1;whiteSpace=wrap;html=1;' vertex='1' parent='1'>
          <mxGeometry x='40' y='200' width='100' height='40' as='geometry' />
        </mxCell>
        <mxCell id='app2' value='App Pod 2' style='rounded=1;whiteSpace=wrap;html=1;' vertex='1' parent='1'>
          <mxGeometry x='40' y='260' width='100' height='40' as='geometry' />
        </mxCell>
        <mxCell id='appN' value='App Pod N' style='rounded=1;whiteSpace=wrap;html=1;dashed=1;' vertex='1' parent='1'>
          <mxGeometry x='40' y='320' width='100' height='40' as='geometry' />
        </mxCell>
        <mxCell id='admin' value='Admin' style='shape=actor;whiteSpace=wrap;html=1;' vertex='1' parent='1'>
          <mxGeometry x='60' y='450' width='40' height='50' as='geometry' />
        </mxCell>

        <!-- DBBouncer Container -->
        <mxCell id='bouncer' value='DBBouncer' style='swimlane;whiteSpace=wrap;html=1;startSize=30;' vertex='1' parent='1'>
          <mxGeometry x='240' y='100' width='540' height='440' as='geometry' />
        </mxCell>
        
        <!-- DBBouncer Internals -->
        <mxCell id='proxy_pg' value='Proxy Server&#10;(PostgreSQL :6432)' style='rounded=1;whiteSpace=wrap;html=1;fillColor=#dae8fc;strokeColor=#6c8ebf;' vertex='1' parent='bouncer'>
          <mxGeometry x='40' y='80' width='120' height='60' as='geometry' />
        </mxCell>
        <mxCell id='proxy_my' value='Proxy Server&#10;(MySQL :3307)' style='rounded=1;whiteSpace=wrap;html=1;fillColor=#dae8fc;strokeColor=#6c8ebf;' vertex='1' parent='bouncer'>
          <mxGeometry x='40' y='160' width='120' height='60' as='geometry' />
        </mxCell>
        
        <mxCell id='api_server' value='REST API&#10;(:8080)' style='rounded=1;whiteSpace=wrap;html=1;fillColor=#fff2cc;strokeColor=#d6b656;' vertex='1' parent='bouncer'>
          <mxGeometry x='40' y='280' width='120' height='60' as='geometry' />
        </mxCell>
        
        <mxCell id='router' value='Router' style='rounded=1;whiteSpace=wrap;html=1;fillColor=#d5e8d4;strokeColor=#82b366;' vertex='1' parent='bouncer'>
          <mxGeometry x='220' y='120' width='90' height='60' as='geometry' />
        </mxCell>
        
        <mxCell id='pool' value='Pool Manager' style='rounded=1;whiteSpace=wrap;html=1;fillColor=#e1d5e7;strokeColor=#9673a6;' vertex='1' parent='bouncer'>
          <mxGeometry x='380' y='120' width='120' height='80' as='geometry' />
        </mxCell>

        <mxCell id='health' value='Health Checker' style='rounded=1;whiteSpace=wrap;html=1;fillColor=#f8cecc;strokeColor=#b85450;' vertex='1' parent='bouncer'>
          <mxGeometry x='220' y='280' width='100' height='60' as='geometry' />
        </mxCell>

        <mxCell id='metrics' value='Metrics (Prometheus)' style='rounded=1;whiteSpace=wrap;html=1;fillColor=#eeeeee;strokeColor=#36393d;' vertex='1' parent='bouncer'>
          <mxGeometry x='380' y='280' width='120' height='60' as='geometry' />
        </mxCell>

        <mxCell id='config' value='Config Watcher' style='shape=document;whiteSpace=wrap;html=1;boundedLbl=1;fillColor=#ffffff;' vertex='1' parent='bouncer'>
          <mxGeometry x='220' y='360' width='100' height='60' as='geometry' />
        </mxCell>

        <!-- Tenant DBs -->
        <mxCell id='t1' value='Tenant 1 DB&#10;(PostgreSQL)' style='shape=cylinder3;whiteSpace=wrap;html=1;boundedLbl=1;backgroundOutline=1;size=15;fillColor=#dae8fc;strokeColor=#6c8ebf;' vertex='1' parent='1'>
          <mxGeometry x='900' y='150' width='100' height='80' as='geometry' />
        </mxCell>
        <mxCell id='t2' value='Tenant 2 DB&#10;(MySQL)' style='shape=cylinder3;whiteSpace=wrap;html=1;boundedLbl=1;backgroundOutline=1;size=15;fillColor=#ffe6cc;strokeColor=#d79b00;' vertex='1' parent='1'>
          <mxGeometry x='900' y='270' width='100' height='80' as='geometry' />
        </mxCell>
        <mxCell id='tN' value='Tenant N DB' style='shape=cylinder3;whiteSpace=wrap;html=1;boundedLbl=1;backgroundOutline=1;size=15;dashed=1;' vertex='1' parent='1'>
          <mxGeometry x='900' y='390' width='100' height='80' as='geometry' />
        </mxCell>

        <!-- Edges -->
        <mxCell id='e1' edge='1' parent='1' source='app1' target='proxy_pg' style='edgeStyle=orthogonalEdgeStyle;rounded=0;orthogonalLoop=1;jettySize=auto;html=1;'>
          <mxGeometry relative='1' as='geometry' />
        </mxCell>
        <mxCell id='e2' edge='1' parent='1' source='app2' target='proxy_pg' style='edgeStyle=orthogonalEdgeStyle;rounded=0;orthogonalLoop=1;jettySize=auto;html=1;'>
          <mxGeometry relative='1' as='geometry' />
        </mxCell>
        <mxCell id='e3' edge='1' parent='1' source='appN' target='proxy_my' style='edgeStyle=orthogonalEdgeStyle;rounded=0;orthogonalLoop=1;jettySize=auto;html=1;'>
          <mxGeometry relative='1' as='geometry' />
        </mxCell>
        <mxCell id='e4' edge='1' parent='1' source='admin' target='api_server' style='edgeStyle=orthogonalEdgeStyle;rounded=0;orthogonalLoop=1;jettySize=auto;html=1;dashed=1;'>
          <mxGeometry relative='1' as='geometry' />
        </mxCell>

        <!-- Internal Edges (using source/target mapped to parent=1 relative positions or just direct references) -->
        <mxCell id='e_px_rt1' edge='1' parent='1' source='proxy_pg' target='router' style='edgeStyle=orthogonalEdgeStyle;html=1;'>
          <mxGeometry relative='1' as='geometry' />
        </mxCell>
        <mxCell id='e_px_rt2' edge='1' parent='1' source='proxy_my' target='router' style='edgeStyle=orthogonalEdgeStyle;html=1;'>
          <mxGeometry relative='1' as='geometry' />
        </mxCell>
        
        <mxCell id='e_rt_pool' edge='1' parent='1' source='router' target='pool' style='edgeStyle=orthogonalEdgeStyle;html=1;'>
          <mxGeometry relative='1' as='geometry' />
        </mxCell>
        
        <mxCell id='e_pool_t1' edge='1' parent='1' source='pool' target='t1' style='edgeStyle=orthogonalEdgeStyle;html=1;'>
          <mxGeometry relative='1' as='geometry' />
        </mxCell>
        <mxCell id='e_pool_t2' edge='1' parent='1' source='pool' target='t2' style='edgeStyle=orthogonalEdgeStyle;html=1;'>
          <mxGeometry relative='1' as='geometry' />
        </mxCell>
        <mxCell id='e_pool_tN' edge='1' parent='1' source='pool' target='tN' style='edgeStyle=orthogonalEdgeStyle;html=1;dashed=1;'>
          <mxGeometry relative='1' as='geometry' />
        </mxCell>

        <!-- Management Edges -->
        <mxCell id='e_api_rt' edge='1' parent='1' source='api_server' target='router' style='edgeStyle=orthogonalEdgeStyle;html=1;dashed=1;startArrow=classic;endArrow=classic;'>
          <mxGeometry relative='1' as='geometry' />
        </mxCell>
        <mxCell id='e_api_pool' edge='1' parent='1' source='api_server' target='pool' style='edgeStyle=orthogonalEdgeStyle;html=1;dashed=1;startArrow=classic;endArrow=classic;'>
          <mxGeometry relative='1' as='geometry'>
             <Array as='points'>
              <mxPoint x='490' y='310' />
            </Array>
          </mxGeometry>
        </mxCell>
        <mxCell id='e_hlth_pool' edge='1' parent='1' source='health' target='pool' style='edgeStyle=orthogonalEdgeStyle;html=1;dashed=1;startArrow=classic;endArrow=none;'>
          <mxGeometry relative='1' as='geometry' />
        </mxCell>
        
        <mxCell id='e_hlth_t1' edge='1' parent='1' source='health' target='t1' style='edgeStyle=orthogonalEdgeStyle;html=1;dashed=1;strokeColor=#b85450;'>
          <mxGeometry relative='1' as='geometry' />
        </mxCell>
        <mxCell id='e_hlth_t2' edge='1' parent='1' source='health' target='t2' style='edgeStyle=orthogonalEdgeStyle;html=1;dashed=1;strokeColor=#b85450;'>
          <mxGeometry relative='1' as='geometry' />
        </mxCell>

        <mxCell id='e_pool_met' edge='1' parent='1' source='pool' target='metrics' style='edgeStyle=orthogonalEdgeStyle;html=1;dashed=1;'>
          <mxGeometry relative='1' as='geometry' />
        </mxCell>
        
        <mxCell id='e_cfg_rt' edge='1' parent='1' source='config' target='router' style='edgeStyle=orthogonalEdgeStyle;html=1;dashed=1;'>
          <mxGeometry relative='1' as='geometry' />
        </mxCell>
        <mxCell id='e_cfg_pool' edge='1' parent='1' source='config' target='pool' style='edgeStyle=orthogonalEdgeStyle;html=1;dashed=1;'>
          <mxGeometry relative='1' as='geometry' />
        </mxCell>
      </root>
    </mxGraphModel>
  </diagram>
</mxfile>
".

Definition xml : string := requote xml_text.

End Document.

(** ** Reading the document back

    The node and edge records exist only as text inside [xml]; the
    program never holds them as data.  To state anything about them the
    document is read back with a reader for the subset of XML it is
    written in: start tags, end tags, empty-element tags, attributes in
    single or double quotes, and comments.  Character data between tags is
    skipped and attribute values are kept as written (a character
    reference such as the line break in a label is not expanded); the
    reader rejects unbalanced or mismatched tags, a repeated attribute
    name, a second root element and malformed markup. *)

Module Reader.

Local Set Warnings "-register-all".

Definition attrs := list (string * string).

Inductive token :=
| TOpen (name : string) (a : attrs)
| TEmpty (name : string) (a : attrs)
| TClose (name : string)
| TComment.

Inductive lstate :=
| LText
| LLt
| LBang1
| LBang2
| LComment (dashes : nat)
| LCloseName (n : string)
| LCloseEnd (n : string)
| LOpenName (n : string)
| LAttrs (n : string) (a : attrs)
| LAttrName (n : string) (a : attrs) (k : string)
| LAttrEq (n : string) (a : attrs) (k : string)
| LAttrVal (n : string) (a : attrs) (k : string) (q : ascii) (v : string)
| LAfterVal (n : string) (a : attrs)
| LEmptyEnd (n : string) (a : attrs).

Definition code (c : ascii) : nat := nat_of_ascii c.

Definition is_space (c : ascii) : bool :=
  ((code c =? 32) || (code c =? 10) || (code c =? 9) || (code c =? 13))%nat.

Definition is_letter (c : ascii) : bool :=
  (((65 <=? code c) && (code c <=? 90)) || ((97 <=? code c) && (code c <=? 122)))%nat.

Definition is_digit (c : ascii) : bool :=
  ((48 <=? code c) && (code c <=? 57))%nat.

Definition is_name_start (c : ascii) : bool :=
  is_letter c || Ascii.eqb c "_" || Ascii.eqb c ":".

Definition is_name_char (c : ascii) : bool :=
  is_name_start c || is_digit c || Ascii.eqb c "-" || Ascii.eqb c ".".

Definition snoc (s : string) (c : ascii) : string := s +:+ String c EmptyString.

Fixpoint lookup_attr (k : string) (a : attrs) : option string :=
  match a with
  | [] => None
  | (k', v) :: rest => if String.eqb k k' then Some v else lookup_attr k rest
  end.

(** One character of input: the next state and the token completed by
    this character, if any; [None] when the markup is malformed. *)
Definition lex_step (st : lstate) (c : ascii) : option (lstate * option token) :=
  match st with
  | LText =>
      if Ascii.eqb c "<" then Some (LLt, None) else Some (LText, None)
  | LLt =>
      if Ascii.eqb c "!" then Some (LBang1, None)
      else if Ascii.eqb c "/" then Some (LCloseName EmptyString, None)
      else if is_name_start c then Some (LOpenName (String c EmptyString), None)
      else None
  | LBang1 => if Ascii.eqb c "-" then Some (LBang2, None) else None
  | LBang2 => if Ascii.eqb c "-" then Some (LComment 0, None) else None
  | LComment 0 =>
      if Ascii.eqb c "-" then Some (LComment 1, None) else Some (LComment 0, None)
  | LComment 1 =>
      if Ascii.eqb c "-" then Some (LComment 2, None) else Some (LComment 0, None)
  | LComment _ =>
      if Ascii.eqb c ">" then Some (LText, Some TComment) else None
  | LCloseName n =>
      if is_name_char c then Some (LCloseName (snoc n c), None)
      else if String.eqb n EmptyString then None
      else if Ascii.eqb c ">" then Some (LText, Some (TClose n))
      else if is_space c then Some (LCloseEnd n, None)
      else None
  | LCloseEnd n =>
      if is_space c then Some (LCloseEnd n, None)
      else if Ascii.eqb c ">" then Some (LText, Some (TClose n))
      else None
  | LOpenName n =>
      if is_name_char c then Some (LOpenName (snoc n c), None)
      else if is_space c then Some (LAttrs n [], None)
      else if Ascii.eqb c ">" then Some (LText, Some (TOpen n []))
      else if Ascii.eqb c "/" then Some (LEmptyEnd n [], None)
      else None
  | LAttrs n a =>
      if is_space c then Some (LAttrs n a, None)
      else if Ascii.eqb c ">" then Some (LText, Some (TOpen n a))
      else if Ascii.eqb c "/" then Some (LEmptyEnd n a, None)
      else if is_name_start c then Some (LAttrName n a (String c EmptyString), None)
      else None
  | LAttrName n a k =>
      if is_name_char c then Some (LAttrName n a (snoc k c), None)
      else if Ascii.eqb c "=" then Some (LAttrEq n a k, None)
      else None
  | LAttrEq n a k =>
      if Ascii.eqb c Document.dquote || Ascii.eqb c Document.apostrophe
      then Some (LAttrVal n a k c EmptyString, None)
      else None
  | LAttrVal n a k q v =>
      if Ascii.eqb c q then
        match lookup_attr k a with
        | Some _ => None
        | None => Some (LAfterVal n (a ++ [(k, v)])%list, None)
        end
      else if Ascii.eqb c "<" then None
      else Some (LAttrVal n a k q (snoc v c), None)
  | LAfterVal n a =>
      if is_space c then Some (LAttrs n a, None)
      else if Ascii.eqb c ">" then Some (LText, Some (TOpen n a))
      else if Ascii.eqb c "/" then Some (LEmptyEnd n a, None)
      else None
  | LEmptyEnd n a =>
      if Ascii.eqb c ">" then Some (LText, Some (TEmpty n a)) else None
  end.

Fixpoint lex_from (st : lstate) (s : string) : option (list token) :=
  match s with
  | EmptyString => match st with LText => Some [] | _ => None end
  | String c rest =>
      match lex_step st c with
      | None => None
      | Some (st', None) => lex_from st' rest
      | Some (st', Some t) =>
          match lex_from st' rest with
          | Some ts => Some (t :: ts)
          | None => None
          end
      end
  end.

Definition lex (s : string) : option (list token) := lex_from LText s.

(** Elements, and the assembly of the token stream into one tree. *)
Inductive element :=
| Element (tag : string) (attributes : attrs) (children : list element).

Definition tag (e : element) : string :=
  match e with Element t _ _ => t end.
Definition attributes (e : element) : attrs :=
  match e with Element _ a _ => a end.
Definition children (e : element) : list element :=
  match e with Element _ _ ch => ch end.

Definition attr (k : string) (e : element) : option string :=
  lookup_attr k (attributes e).

(** An element still open: its tag, attributes, and the children read so
    far, last one first. *)
Definition frame := (string * attrs * list element)%type.

(** [place e stack root]: a finished element goes under the innermost
    open element, or becomes the root when none is open and no root was
    read yet. *)
Definition place (e : element) (stack : list frame) (root : option element)
  : option (list frame * option element) :=
  match stack with
  | (t, a, ch) :: below => Some ((t, a, e :: ch) :: below, root)
  | [] => match root with
          | None => Some ([], Some e)
          | Some _ => None
          end
  end.

Fixpoint build (ts : list token) (stack : list frame) (root : option element)
  : option element :=
  match ts with
  | [] => match stack with [] => root | _ => None end
  | TComment :: rest => build rest stack root
  | TOpen n a :: rest =>
      match stack, root with
      | [], Some _ => None
      | _, _ => build rest ((n, a, []) :: stack) root
      end
  | TEmpty n a :: rest =>
      match place (Element n a []) stack root with
      | Some (stack', root') => build rest stack' root'
      | None => None
      end
  | TClose n :: rest =>
      match stack with
      | (t, a, ch) :: below =>
          if String.eqb t n then
            match place (Element t a (rev ch)) below root with
            | Some (stack', root') => build rest stack' root'
            | None => None
            end
          else None
      | [] => None
      end
  end.

Definition parse (s : string) : option element :=
  match lex s with
  | Some ts => build ts [] None
  | None => None
  end.

(** The cells of a draw.io file: the [mxCell] children of
    [mxfile/diagram/mxGraphModel/root]. *)
Definition named (t : string) (e : element) : list element :=
  List.filter (fun c => String.eqb (tag c) t) (children e).

Definition graph_cells (d : element) : list element :=
  if String.eqb (tag d) "mxfile" then
    flat_map (named "mxCell")
      (flat_map (named "root")
        (flat_map (named "mxGraphModel") (named "diagram" d)))
  else [].

(** A cell is a node when it carries [vertex="1"] and an edge when it
    carries [edge="1"]. *)
Definition flag (k : string) (c : element) : bool :=
  match attr k c with
  | Some v => String.eqb v "1"
  | None => false
  end.

Definition is_vertex (c : element) : bool := flag "vertex" c.
Definition is_edge (c : element) : bool := flag "edge" c.

(** Identifiers: a cell without an [id] attribute contributes none. *)
Definition ids (cs : list element) : list string :=
  omap (attr "id") cs.

End Reader.

(** ** The records of the emitted document *)

Module Diagram.
Import Reader.

Definition document : option element := parse Document.xml.

Definition cells : list element := from_option graph_cells [] document.

Definition nodes : list element := List.filter is_vertex cells.
Definition edges : list element := List.filter is_edge cells.

Definition node_ids : list string := ids nodes.
Definition edge_ids : list string := ids edges.
Definition cell_ids : list string := ids cells.

(** The top-level canvas is the default layer, cell ["1"]. *)
Definition canvas : string := "1".

(** The container that declares node [i], when [i] is a declared node. *)
Definition node_parent (i : string) : option string :=
  List.find (fun n => bool_decide (attr "id" n = Some i)) nodes ≫= attr "parent".

(** Edges that run between two nodes of the same container [k]. *)
Definition joins_inside (k : string) (e : element) : bool :=
  bool_decide (attr "source" e ≫= node_parent = Some k) &&
  bool_decide (attr "target" e ≫= node_parent = Some k).

Definition internal_edges (k : string) : list element :=
  List.filter (joins_inside k) edges.

(** Textual declarations: how often a piece of markup occurs in a
    string. *)
Fixpoint occurrences (p s : string) : nat :=
  match s with
  | EmptyString => if String.prefix p EmptyString then 1 else 0
  | String c rest =>
      ((if String.prefix p s then 1 else 0) + occurrences p rest)%nat
  end.

(** The attributes that identify a cell and tie it to others.  [mentions
    c s]: the character [c] occurs in [s].  A value without an ampersand
    holds no character or entity reference, so the reader has nothing to
    expand in it. *)
Definition identifying : list string :=
  ["id"; "parent"; "source"; "target"; "vertex"; "edge"].

Fixpoint mentions (c : ascii) (s : string) : bool :=
  match s with
  | EmptyString => false
  | String c' rest => Ascii.eqb c c' || mentions c rest
  end.

Definition reference_free (e : element) : bool :=
  forallb (fun k => match attr k e with
                    | Some v => negb (mentions "&" v)
                    | None => true
                    end) identifying.

(** Decision procedures for the properties of the document, over any
    list of cells. *)
Definition mem (s : string) (l : list string) : bool :=
  existsb (String.eqb s) l.

Fixpoint distinct (l : list string) : bool :=
  match l with
  | [] => true
  | x :: rest => negb (mem x rest) && distinct rest
  end.

Definition endpoint_in (ns : list string) (k : string) (e : element) : bool :=
  match attr k e with
  | Some s => mem s ns
  | None => false
  end.

Definition edge_closed (ns : list string) (e : element) : bool :=
  endpoint_in ns "source" e && endpoint_in ns "target" e.

Definition contained (ns : list string) (n : element) : bool :=
  match attr "parent" n with
  | Some p => String.eqb p canvas || mem p ns
  | None => false
  end.

Definition on_canvas (e : element) : bool :=
  match attr "parent" e with
  | Some p => String.eqb p canvas
  | None => false
  end.

End Diagram.

(** ** The world the script runs in

    The statements after the literal call into the Python library:
    [os.makedirs], [open] in text mode, [write], the [close] that leaving
    the [with] block performs, and [print].  Their effect on a POSIX file
    system is modelled here as far as the script can observe it:
    directories and regular files, three ways a call can be refused (an
    entry of the wrong kind in the way, a directory or file that may not
    be written, a full disk), the text encoding picked up from the locale
    when a file is opened in text mode, the buffer of an open file, and
    the standard output. *)

Module Posix.

(** A path is its list of components, innermost first: the parent
    directory is the tail and the root is the empty list. *)
Abbreviation path := (list string).

Definition parent (p : path) : path := tail p.

Fixpoint split_slash (s cur : string) (acc : path) : path :=
  let acc' := if String.eqb cur EmptyString then acc else cur :: acc in
  match s with
  | EmptyString => acc'
  | String c rest =>
      if Ascii.eqb c "/" then split_slash rest EmptyString acc'
      else split_slash rest (Reader.snoc cur c) acc
  end.

(** The components of an absolute path name. *)
Definition path_of (name : string) : path := split_slash name EmptyString [].

Abbreviation bytes := (list Byte.byte).

Inductive entry :=
| Dir
| File (data : bytes).

Inductive encoding := UTF8 | Latin1 | ASCII.

(** A character of the string as bytes: below 128 every encoding writes
    the one byte; above, they differ; ASCII has no encoding for it. *)
Definition encode_char (enc : encoding) (c : ascii) : option bytes :=
  let n := nat_of_ascii c in
  if (n <? 128)%nat then Some [byte_of_ascii c]
  else match enc with
       | ASCII => None
       | Latin1 => Some [byte_of_ascii c]
       | UTF8 => Some [byte_of_ascii (ascii_of_nat (192 + n / 64));
                       byte_of_ascii (ascii_of_nat (128 + n mod 64))]
       end.

Fixpoint encode (enc : encoding) (s : string) : option bytes :=
  match s with
  | EmptyString => Some []
  | String c rest =>
      match encode_char enc c, encode enc rest with
      | Some b, Some bs => Some (b ++ bs)%list
      | _, _ => None
      end
  end.

(** The bytes of a string of characters below 128. *)
Fixpoint raw_bytes (s : string) : bytes :=
  match s with
  | EmptyString => []
  | String c rest => byte_of_ascii c :: raw_bytes rest
  end.

(** [plain s]: every character of [s] is below 128. *)
Fixpoint plain (s : string) : bool :=
  match s with
  | EmptyString => true
  | String c rest => (nat_of_ascii c <? 128)%nat && plain rest
  end.

Inductive exn :=
| FileExistsError
| FileNotFoundError
| NotADirectoryError
| IsADirectoryError
| PermissionError
| OSError_ENOSPC
| OSError_EBADF
| UnicodeEncodeError
| ValueError.

(** [except OSError] catches the first seven. *)
Definition is_OSError (e : exn) : bool :=
  match e with
  | UnicodeEncodeError | ValueError => false
  | _ => true
  end.

(** Library calls made by the script, in the order they are made. *)
Inductive call :=
| CallMakedirs (name : string) (exist_ok : bool)
| CallOpen (name mode : string)
| CallWrite (file : path) (text : string)
| CallClose (file : path)
| CallPrint (text : string).

(** The world: what the process was started with ([argv], [environ],
    the encoding of the locale, the size of the buffer of a file object),
    the disk ([files], the directories and files that may not be written,
    the free space in bytes), the files the process has open, each with
    the bytes still in its buffer, what was printed, and the calls made
    so far. *)
Record world := World {
  argv : list string;
  environ : list (string * string);
  locale_encoding : encoding;
  buffer_size : nat;
  files : gmap path entry;
  readonly : gset path;
  free_space : nat;
  opened : list (path * bytes);
  stdout : string;
  history : list call;
}.

Definition with_files (fs : gmap path entry) (w : world) : world :=
  World (argv w) (environ w) (locale_encoding w) (buffer_size w) fs
        (readonly w) (free_space w) (opened w) (stdout w) (history w).
Definition with_free_space (n : nat) (w : world) : world :=
  World (argv w) (environ w) (locale_encoding w) (buffer_size w) (files w)
        (readonly w) n (opened w) (stdout w) (history w).
Definition with_opened (l : list (path * bytes)) (w : world) : world :=
  World (argv w) (environ w) (locale_encoding w) (buffer_size w) (files w)
        (readonly w) (free_space w) l (stdout w) (history w).
Definition with_stdout (s : string) (w : world) : world :=
  World (argv w) (environ w) (locale_encoding w) (buffer_size w) (files w)
        (readonly w) (free_space w) (opened w) s (history w).
Definition with_history (h : list call) (w : world) : world :=
  World (argv w) (environ w) (locale_encoding w) (buffer_size w) (files w)
        (readonly w) (free_space w) (opened w) (stdout w) h.

(** Path resolution: the entry a path leads to, through directories
    only.  The root is always a directory. *)
Fixpoint stat (fs : gmap path entry) (p : path) : option entry :=
  match p with
  | [] => Some Dir
  | _ :: up =>
      match stat fs up with
      | Some Dir => fs !! p
      | _ => None
      end
  end.

Definition exists_ (w : world) (p : path) : bool :=
  match stat (files w) p with Some _ => true | None => false end.

Definition isdir (w : world) (p : path) : bool :=
  match stat (files w) p with Some Dir => true | _ => false end.

(** *** Computations that may raise *)

Inductive result (A : Type) :=
| Ok (a : A)
| Raise (e : exn).
Arguments Ok {A} a.
Arguments Raise {A} e.

Definition M (A : Type) : Type := world → result A * world.

Definition raise {A} (e : exn) : M A := λ w, (Raise e, w).

Definition bind {A B} (m : M A) (k : A → M B) : M B :=
  λ w, match m w with
       | (Ok a, w') => k a w'
       | (Raise e, w') => (Raise e, w')
       end.

Declare Scope posix_scope.
Delimit Scope posix_scope with posix.
Notation "'do' x <- m ; k" := (bind m (λ x, k))
  (at level 10, x name, m at level 100, k at level 200) : posix_scope.
Notation "m >> k" := (bind m (λ _, k))
  (at level 100, right associativity) : posix_scope.
Local Open Scope posix_scope.

Definition record (c : call) : M unit :=
  λ w, (Ok tt, with_history (history w ++ [c])%list w).

(** [try: body finally: final]: the final action runs however the body
    ends; what the body raised is raised again after it, unless the final
    action raises itself. *)
Definition try_finally {B} (body : M B) (final : M unit) : M B :=
  λ w, match body w with
       | (r, w') =>
           match final w' with
           | (Ok _, w'') => (r, w'')
           | (Raise e, w'') => (Raise e, w'')
           end
       end.

(** [with enter as x: body]: once entered, the exit action runs however
    the body ends. *)
Definition with_ {A B} (enter : M A) (exit : A → M unit) (body : A → M B) : M B :=
  do x <- enter; try_finally (body x) (exit x).

(** *** The calls *)

(** [os.mkdir]: one directory, whose parent must be there. *)
Definition mkdir (p : path) : M unit :=
  λ w, match stat (files w) (parent p) with
       | None => (Raise FileNotFoundError, w)
       | Some (File _) => (Raise NotADirectoryError, w)
       | Some Dir =>
           match stat (files w) p with
           | Some _ => (Raise FileExistsError, w)
           | None =>
               if bool_decide (parent p ∈ readonly w)
               then (Raise PermissionError, w)
               else (Ok tt, with_files (<[p := Dir]> (files w)) w)
           end
       end.

(** The last step of [os.makedirs]: [mkdir], whose failure is passed
    over when [exist_ok] is set and the directory is there. *)
Definition mkdir_leaf (p : path) (exist_ok : bool) : M unit :=
  λ w, match mkdir p w with
       | (Ok _, w') => (Ok tt, w')
       | (Raise e, w') =>
           if is_OSError e && exist_ok && isdir w' p
           then (Ok tt, w')
           else (Raise e, w')
       end.

(** [os.makedirs]: when the parent is missing it is made first, by the
    same function, a [FileExistsError] from there being passed over. *)
Fixpoint makedirs (p : path) (exist_ok : bool) : M unit :=
  match p with
  | [] => mkdir_leaf [] exist_ok
  | _ :: head =>
      (λ w, if exists_ w head then (Ok tt, w)
            else match makedirs head exist_ok w with
                 | (Raise FileExistsError, w') => (Ok tt, w')
                 | rw => rw
                 end) >>
      mkdir_leaf p exist_ok
  end.

Definition os_makedirs (name : string) (exist_ok : bool) : M unit :=
  record (CallMakedirs name exist_ok) >>
  makedirs (path_of name) exist_ok.

(** An open text file: where it is and how its text is encoded. *)
Record file_object := FileObject {
  fo_path : path;
  fo_encoding : encoding;
}.

(** [open(name, "w")]: the file is created, or emptied when it is
    there, and is open with an empty buffer. *)
Definition open_w (p : path) : M file_object :=
  λ w, match stat (files w) (parent p) with
       | None => (Raise FileNotFoundError, w)
       | Some (File _) => (Raise NotADirectoryError, w)
       | Some Dir =>
           let f := FileObject p (locale_encoding w) in
           match stat (files w) p with
           | Some Dir => (Raise IsADirectoryError, w)
           | Some (File old) =>
               if bool_decide (p ∈ readonly w) then (Raise PermissionError, w)
               else (Ok f,
                     with_opened ((p, []) :: opened w)
                       (with_free_space (free_space w + length old)
                          (with_files (<[p := File []]> (files w)) w)))
           | None =>
               if bool_decide (parent p ∈ readonly w)
               then (Raise PermissionError, w)
               else (Ok f,
                     with_opened ((p, []) :: opened w)
                       (with_files (<[p := File []]> (files w)) w))
           end
       end.

Definition open (name mode : string) : M file_object :=
  record (CallOpen name mode) >>
  if String.eqb mode "w" then open_w (path_of name) else raise ValueError.

(** The buffer of an open file, by its path. *)
Fixpoint pending (p : path) (l : list (path * bytes)) : option bytes :=
  match l with
  | [] => None
  | (q, bs) :: rest => if bool_decide (p = q) then Some bs else pending p rest
  end.

Fixpoint set_pending (p : path) (bs : bytes) (l : list (path * bytes))
  : list (path * bytes) :=
  match l with
  | [] => []
  | (q, old) :: rest =>
      if bool_decide (p = q) then (q, bs) :: rest
      else (q, old) :: set_pending p bs rest
  end.

Fixpoint remove_first (p : path) (l : list (path * bytes)) : list (path * bytes) :=
  match l with
  | [] => []
  | (q, bs) :: rest =>
      if bool_decide (p = q) then rest else (q, bs) :: remove_first p rest
  end.

(** Bytes leave the buffer for the disk: they are appended to the file;
    on a full disk what fits is appended and the call raises. *)
Definition flush (p : path) (bs : bytes) : M unit :=
  λ w, match files w !! p with
       | Some (File old) =>
           if (length bs <=? free_space w)%nat then
             (Ok tt,
              with_free_space (free_space w - length bs)
                (with_files (<[p := File (old ++ bs)%list]> (files w)) w))
           else
             (Raise OSError_ENOSPC,
              with_free_space 0
                (with_files
                   (<[p := File (old ++ take (free_space w) bs)%list]> (files w)) w))
       | _ => (Raise OSError_EBADF, w)
       end.

(** [f.write(text)]: the encoded text goes to the buffer of the file
    object; when the buffer holds more than its size, it is emptied to
    the disk at once. *)
Definition write (f : file_object) (text : string) : M nat :=
  record (CallWrite (fo_path f) text) >>
  λ w, match pending (fo_path f) (opened w) with
       | None => (Raise ValueError, w)
       | Some held =>
           match encode (fo_encoding f) text with
           | None => (Raise UnicodeEncodeError, w)
           | Some bs =>
               let buffer := (held ++ bs)%list in
               if (length buffer <=? buffer_size w)%nat then
                 (Ok (String.length text),
                  with_opened (set_pending (fo_path f) buffer (opened w)) w)
               else
                 match flush (fo_path f) buffer
                         (with_opened (set_pending (fo_path f) [] (opened w)) w) with
                 | (Ok _, w') => (Ok (String.length text), w')
                 | (Raise e, w') => (Raise e, w')
                 end
           end
       end.

(** [f.close()]: what is left in the buffer goes to the disk, and the
    file is no longer open, also when that raises.  Closing a file that
    is not open does nothing. *)
Definition close (f : file_object) : M unit :=
  record (CallClose (fo_path f)) >>
  λ w, match pending (fo_path f) (opened w) with
       | None => (Ok tt, w)
       | Some held =>
           flush (fo_path f) held
             (with_opened (remove_first (fo_path f) (opened w)) w)
       end.

Definition newline : string := String "010"%char EmptyString.

Definition print (text : string) : M unit :=
  record (CallPrint text) >>
  λ w, (Ok tt, with_stdout (stdout w +:+ text +:+ newline) w).

(** What the interpreter returns to the shell: 0 when the script ran to
    its end, 1 when an exception was left uncaught. *)
Definition exit_status {A} (r : result A) : nat :=
  match r with
  | Ok _ => 0
  | Raise _ => 1
  end.

End Posix.

(** ** The script *)

Module Script.
Import Posix.
Local Open Scope posix_scope.

Definition xml : string := Document.xml.

(** Lines 146-150 of the source. *)
Definition script : M unit :=
  os_makedirs "/Users/jeelk/Documents/GitHub/JeelKantaria/db-bouncer/docs" true >>
  with_ (open "/Users/jeelk/Documents/GitHub/JeelKantaria/db-bouncer/docs/architecture.drawio" "w")
        close
        (λ f, write f xml) >>
  print "Created /Users/jeelk/Documents/GitHub/JeelKantaria/db-bouncer/docs/architecture.drawio".

(** A run of the program from a world: how it ended and the world it
    left. *)
Definition run (w : world) : result unit * world := script w.

(** The three literals of the script, the paths they name, the bytes of
    the document, and the calls of a run that goes well. *)
Definition docs_name : string :=
  "/Users/jeelk/Documents/GitHub/JeelKantaria/db-bouncer/docs".
Definition out_name : string :=
  "/Users/jeelk/Documents/GitHub/JeelKantaria/db-bouncer/docs/architecture.drawio".
Definition confirmation : string :=
  "Created /Users/jeelk/Documents/GitHub/JeelKantaria/db-bouncer/docs/architecture.drawio".

Definition docs : path := path_of docs_name.
Definition out : path := path_of out_name.

Definition document_bytes : bytes := raw_bytes xml.

Definition script_calls : list call :=
  [CallMakedirs docs_name true; CallOpen out_name "w"; CallWrite out xml;
   CallClose out; CallPrint confirmation].


End Script.


(** ** What the calls and the script are shown to do *)

Module Behaviour.
Import Posix Script.
Local Open Scope posix_scope.
Local Open Scope nat_scope.

(** [grows p w w']: from [w] to [w'] nothing changed but the file
    system, and there only directories were added, at [p] or above it,
    where nothing was. *)
Definition grows (p : path) (w w' : world) : Prop :=
  w' = with_files (files w') w ∧
  ∀ q, files w' !! q = files w !! q ∨
       (files w !! q = None ∧ files w' !! q = Some Dir ∧ q `suffix_of` p).

(** [creatable w p]: on the way down to [p] no file is in the way, and
    every directory that is missing may be made. *)
Fixpoint creatable (w : world) (p : path) : bool :=
  match p with
  | [] => true
  | _ :: head =>
      creatable w head &&
      match files w !! p with
      | Some Dir => true
      | Some (File _) => false
      | None => negb (bool_decide (head ∈ readonly w))
      end
  end.

(** *** What a call looks at

    Two worlds hold the same disk when they agree on the file system, on
    what may be written, and on the free space.  Every call ends the same
    way in both and leaves the same disk: arguments, environment, locale,
    output so far and history have no influence. *)
Definition same_disk (w v : world) : Prop :=
  files w = files v ∧ readonly w = readonly v ∧ free_space w = free_space v.

Definition status {A} (r : result A) : option exn :=
  match r with
  | Ok _ => None
  | Raise e => Some e
  end.

Definition respects {A} (m : M A) : Prop :=
  ∀ w v, same_disk w v →
         status (fst (m w)) = status (fst (m v)) ∧
         same_disk (snd (m w)) (snd (m v)).

(** *** The script with its literals named

    [emit] is [script] with the directory name, the file name, the
    confirmation and the text taken as arguments. *)

Section Emit.

Variables dname oname msg text : string.

Definition emit : M unit :=
  os_makedirs dname true >>
  with_ (open oname "w") close (λ f, write f text) >>
  print msg.

Definition calls : list call :=
  [CallMakedirs dname true; CallOpen oname "w";
   CallWrite (path_of oname) text; CallClose (path_of oname); CallPrint msg].

Definition called (k : nat) (w : world) : world :=
  with_history (history w ++ take k calls)%list w.

(** How a run can end, and the world it leaves in each case: the
    directories cannot be made; the file cannot be opened; the disk is
    full, which [write] or [close] finds out; or all went well. *)
Inductive ending (w : world) : result unit → world → Prop :=
| EndMakedirs (e : exn) (w1 : world) :
    makedirs (path_of dname) true (called 1 w) = (Raise e, w1) →
    ending w (Raise e) w1
| EndOpen (e : exn) (fs1 : gmap path entry) :
    makedirs (path_of dname) true (called 1 w) = (Ok tt, with_files fs1 (called 1 w)) →
    open_w (path_of oname) (with_files fs1 (called 2 w)) =
      (Raise e, with_files fs1 (called 2 w)) →
    ending w (Raise e) (with_files fs1 (called 2 w))
| EndFull (fs1 : gmap path entry) (f : file_object) (w2 : world) :
    makedirs (path_of dname) true (called 1 w) = (Ok tt, with_files fs1 (called 1 w)) →
    open_w (path_of oname) (with_files fs1 (called 2 w)) = (Ok f, w2) →
    free_space w2 < length (raw_bytes text) →
    ending w (Raise OSError_ENOSPC)
      (World (argv w) (environ w) (locale_encoding w) (buffer_size w)
         (<[path_of oname := File (take (free_space w2) (raw_bytes text))]> fs1)
         (readonly w) 0 (opened w) (stdout w) (history w ++ take 4 calls))
| EndDone (fs1 : gmap path entry) (f : file_object) (w2 : world) :
    makedirs (path_of dname) true (called 1 w) = (Ok tt, with_files fs1 (called 1 w)) →
    open_w (path_of oname) (with_files fs1 (called 2 w)) = (Ok f, w2) →
    length (raw_bytes text) ≤ free_space w2 →
    ending w (Ok tt)
      (World (argv w) (environ w) (locale_encoding w) (buffer_size w)
         (<[path_of oname := File (raw_bytes text)]> fs1)
         (readonly w) (free_space w2 - length (raw_bytes text)) (opened w)
         (stdout w +:+ msg +:+ newline) (history w ++ calls)).

(** What making the directories did to the file system. *)
Definition dirs_added (fs fs' : gmap path entry) : Prop :=
  ∀ q, fs' !! q = fs !! q ∨
       (fs !! q = None ∧ fs' !! q = Some Dir ∧ q `suffix_of` path_of dname).

(** A world in which the run goes well: the directories are there or can
    be made, and the file can be created, or is there and can be
    overwritten, with room for the text on the disk once the old content
    is dropped. *)
Definition can_emit (w : world) : bool :=
  creatable w (path_of dname) &&
  match files w !! path_of oname with
  | None => negb (bool_decide (path_of dname ∈ readonly w)) &&
            (String.length text <=? free_space w)
  | Some (File old) =>
      negb (bool_decide (path_of oname ∈ readonly w)) &&
      (String.length text <=? free_space w + length old)
  | Some Dir => false
  end.

End Emit.

Arguments EndMakedirs {dname oname msg text} w e w1 _.
Arguments EndOpen {dname oname msg text} w e fs1 _ _.
Arguments EndFull {dname oname msg text} w fs1 f w2 _ _ _.
Arguments EndDone {dname oname msg text} w fs1 f w2 _ _ _.

Definition can_run (w : world) : bool := can_emit docs_name out_name xml w.

(** *** The calls of the script, one by one

    Each call in the world the call before it left: what it returns or
    raises there, whatever the script goes on to do with it. *)
Definition step_makedirs (w : world) : result unit * world :=
  os_makedirs docs_name true w.

Definition step_open (w : world) : result file_object * world :=
  open out_name "w" (snd (step_makedirs w)).

Definition step_write (f : file_object) (w : world) : result nat * world :=
  write f xml (snd (step_open w)).

Definition step_close (f : file_object) (w : world) : result unit * world :=
  close f (snd (step_write f w)).

(** Worlds to run the script in. *)
Module Worlds.

Local Set Warnings "-abstract-large-number".

(** An empty disk with room on it. *)
Definition fresh : world :=
  World ["gen_drawio.py"] [] UTF8 8192 ∅ ∅ 20000 [] "" [].

(** The same disk seen with other arguments, another environment,
    another locale and a larger buffer. *)
Definition fresh_elsewhere : world :=
  World ["gen_drawio.py"; "--out"; "/tmp/x.drawio"]
        [("LANG", "C"); ("OUT", "/tmp/y.drawio")] Latin1 65536 ∅ ∅ 20000 [] "" [].

Fixpoint directories (p : path) (fs : gmap path entry) : gmap path entry :=
  match p with
  | [] => fs
  | _ :: up => <[p := Dir]> (directories up fs)
  end.

(** The directories are there, and an older file with other content is in
    the place of the output. *)
Definition stale : world :=
  World ["gen_drawio.py"] [] UTF8 8192
        (<[out := File (raw_bytes "<mxfile/>")]> (directories docs ∅))
        ∅ 9000 [] "" [].

(** Nothing may be created under the root. *)
Definition locked : world :=
  World ["gen_drawio.py"] [] UTF8 8192 ∅ {[ [] ]} 20000 [] "" [].

(** A disk with room for a hundred bytes: with this buffer it is [write]
    that finds the disk full. *)
Definition full : world :=
  World ["gen_drawio.py"] [] UTF8 8192 ∅ ∅ 100 [] "" [].

(** The same with a buffer that takes the whole document: [close] finds
    the disk full. *)
Definition full_at_close : world :=
  World ["gen_drawio.py"] [] UTF8 65536 ∅ ∅ 100 [] "" [].

End Worlds.

End Behaviour.


(** ** Further worlds *)

Module MoreWorlds.
Import Posix Script.

Local Set Warnings "-abstract-large-number".

(** An empty disk on which the output, once created, may not be written
    again. *)
Definition sealed : world :=
  World ["gen_drawio.py"] [] UTF8 8192 ∅ {[ out ]} 20000 [] "" [].

(** A file is in the place of the first directory, and another file lies
    elsewhere. *)
Definition blocked : world :=
  World ["gen_drawio.py"] [] UTF8 8192
        (<[ ["Users"] := File (raw_bytes "not a directory") ]>
           (<[ ["notes.txt"] := File (raw_bytes "keep me") ]> ∅))
        ∅ 20000 [] "" [].

(** The directories are there, and so is a directory in the place of the
    output. *)
Definition occupied : world :=
  World ["gen_drawio.py"] [] UTF8 8192
        (Behaviour.Worlds.directories out ∅) ∅ 20000 [] "" [].

End MoreWorlds.

(** ** The picture the document draws

    What a diagram editor makes of the cells: every node and edge has a
    geometry; a node's geometry is a box, placed relative to its owning
    container; the page has a size and a container a header.  The numbers
    are read from the attribute values, which write them in decimal. *)

Module Layout.
Import Reader Diagram.
Local Open Scope nat_scope.

Definition digit (c : ascii) : option nat :=
  if is_digit c then Some (code c - 48) else None.

Fixpoint number_from (acc : nat) (s : string) : option nat :=
  match s with
  | EmptyString => Some acc
  | String c rest =>
      match digit c with
      | Some d => number_from (10 * acc + d) rest
      | None => None
      end
  end.

(** A decimal number: one digit or more, and nothing else. *)
Definition number (s : string) : option nat :=
  match s with
  | EmptyString => None
  | _ => number_from 0 s
  end.

(** The items of a style, which are separated by semicolons, and the
    value a style gives to a key in an item [key=value]. *)
Fixpoint split_on (sep : ascii) (s cur : string) : list string :=
  match s with
  | EmptyString => [cur]
  | String c rest =>
      if Ascii.eqb c sep then cur :: split_on sep rest EmptyString
      else split_on sep rest (snoc cur c)
  end.

Fixpoint key_value (item key : string) : string * string :=
  match item with
  | EmptyString => (key, EmptyString)
  | String c rest =>
      if Ascii.eqb c "=" then (key, rest) else key_value rest (snoc key c)
  end.

Definition style_value (k : string) (style : string) : option string :=
  lookup_attr k
    (map (fun item => key_value item EmptyString) (split_on ";" style EmptyString)).

(** The one [mxGeometry] child of a cell. *)
Definition geometry (c : element) : option element :=
  match named "mxGeometry" c with
  | [g] => Some g
  | _ => None
  end.

Record box := Box { box_x : nat; box_y : nat; box_width : nat; box_height : nat }.

Definition coordinate (k : string) (g : element) : option nat :=
  attr k g ≫= number.

Definition box_of (c : element) : option box :=
  g ← geometry c;
  x ← coordinate "x" g;
  y ← coordinate "y" g;
  w ← coordinate "width" g;
  h ← coordinate "height" g;
  Some (Box x y w h).

(** The graph model element, which carries the page size. *)
Definition model : option element :=
  d ← document;
  match flat_map (named "mxGraphModel") (named "diagram" d) with
  | [m] => Some m
  | _ => None
  end.

Definition node_with_id (i : string) : option element :=
  List.find (fun n => bool_decide (attr "id" n = Some i)) nodes.

(** The height of the header of a container: the [startSize] of its
    style, nothing when the style gives none. *)
Definition header (c : element) : nat :=
  default 0 ((attr "style" c ≫= style_value "startSize") ≫= number).

(** The room a node is placed in: width, height, and the top it has to
    stay below.  On the canvas this is the page; in a container, the box
    of the container under its header. *)
Definition room (n : element) : option (nat * nat * nat) :=
  p ← attr "parent" n;
  if String.eqb p canvas then
    m ← model;
    w ← coordinate "pageWidth" m;
    h ← coordinate "pageHeight" m;
    Some (w, h, 0)
  else
    c ← node_with_id p;
    b ← box_of c;
    Some (box_width b, box_height b, header c).

(** Two boxes that share no point of their interiors. *)
Definition apart (a b : box) : Prop :=
  box_x a + box_width a ≤ box_x b ∨ box_x b + box_width b ≤ box_x a ∨
  box_y a + box_height a ≤ box_y b ∨ box_y b + box_height b ≤ box_y a.

Definition apart_b (a b : box) : bool :=
  (box_x a + box_width a <=? box_x b) || (box_x b + box_width b <=? box_x a) ||
  (box_y a + box_height a <=? box_y b) || (box_y b + box_height b <=? box_y a).

(** A node placed in its room, with a size. *)
Definition placed (n : element) : Prop :=
  ∃ b W H T, box_of n = Some b ∧ room n = Some (W, H, T) ∧
             box_x b + box_width b ≤ W ∧
             T ≤ box_y b ∧ box_y b + box_height b ≤ H ∧
             0 < box_width b ∧ 0 < box_height b.

Definition placed_b (n : element) : bool :=
  match box_of n, room n with
  | Some b, Some (W, H, T) =>
      (box_x b + box_width b <=? W) &&
      (T <=? box_y b) && (box_y b + box_height b <=? H) &&
      (0 <? box_width b) && (0 <? box_height b)
  | _, _ => false
  end.

(** Two nodes of the same container drawn apart. *)
Definition clear_of (n m : element) : Prop :=
  attr "parent" n = attr "parent" m →
  ∃ a b, box_of n = Some a ∧ box_of m = Some b ∧ apart a b.

Definition clear_of_b (n m : element) : bool :=
  negb (bool_decide (attr "parent" n = attr "parent" m)) ||
  match box_of n, box_of m with
  | Some a, Some b => apart_b a b
  | _, _ => false
  end.

Fixpoint pairwise (f : element → element → bool) (l : list element) : bool :=
  match l with
  | [] => true
  | x :: rest => forallb (f x) rest && pairwise f rest
  end.

(** The geometry of an edge: one [mxGeometry], relative, marked as the
    geometry of its cell. *)
Definition edge_drawn (e : element) : Prop :=
  ∃ g, geometry e = Some g ∧ attr "relative" g = Some "1" ∧
       attr "as" g = Some "geometry".

Definition edge_drawn_b (e : element) : bool :=
  match geometry e with
  | Some g => bool_decide (attr "relative" g = Some "1") &&
              bool_decide (attr "as" g = Some "geometry")
  | None => false
  end.

(** The geometry of a node: one [mxGeometry], marked as the geometry of
    its cell, which gives a box. *)
Definition node_drawn (n : element) : Prop :=
  ∃ g b, geometry n = Some g ∧ attr "as" g = Some "geometry" ∧
         box_of n = Some b.

Definition node_drawn_b (n : element) : bool :=
  match geometry n, box_of n with
  | Some g, Some _ => bool_decide (attr "as" g = Some "geometry")
  | _, _ => false
  end.

(** References: the attributes of a cell that name another cell. *)
Definition references : list string := ["parent"; "source"; "target"].

Definition refers_back (seen : list string) (c : element) : bool :=
  forallb (fun k => match attr k c with
                    | Some v => mem v seen
                    | None => true
                    end) references.

Fixpoint declared_before (seen : list string) (cs : list element) : bool :=
  match cs with
  | [] => true
  | c :: rest => refers_back seen c && declared_before (seen ++ ids [c]) rest
  end.

(** The identifiers edges end at, and the identifiers used as owning
    container by a node. *)
Definition endpoints : list string :=
  omap (attr "source") edges ++ omap (attr "target") edges.

Definition containers : list string := omap (attr "parent") nodes.

Definition joined (e : element) : option string * option string :=
  (attr "source" e, attr "target" e).

(** The cell an identifier names, and the owners of a cell: the cell its
    [parent] names, the owner of that one, and so on up to a cell that has
    none.  [fuel] bounds the number of steps. *)
Definition cell_with_id (i : string) : option element :=
  List.find (fun c => bool_decide (attr "id" c = Some i)) cells.

Fixpoint owners (fuel : nat) (c : element) : option (list string) :=
  match attr "parent" c with
  | None => Some []
  | Some p =>
      match fuel with
      | 0 => None
      | S n =>
          o ← cell_with_id p;
          l ← owners n o;
          Some (p :: l)
      end
  end.

(** A cell under the root: following the owners from it ends, within as
    many steps as there are cells, at the cell ["0"]. *)
Definition under_root (c : element) : Prop :=
  ∃ l, owners (length cells) c = Some l ∧ last (ids [c] ++ l)%list = Some "0".

Definition under_root_b (c : element) : bool :=
  from_option (fun l => bool_decide (last (ids [c] ++ l)%list = Some "0")) false
    (owners (length cells) c).

Definition owned (c : element) : bool :=
  bool_decide (is_Some (attr "parent" c)).

(** The cell at a place in the document, and the node at a place among
    the nodes (an empty element where there is none). *)
Definition cell_at (i : nat) : element :=
  default (Element EmptyString [] []) (cells !! i).

Definition node_at (i : nat) : element :=
  default (Element EmptyString [] []) (nodes !! i).

End Layout.
(** ** Properties of the emitted document *)

Module DiagramFacts.
Import Reader Diagram.

Lemma mem_elem_of (s : string) (l : list string) : mem s l = true → s ∈ l.
Proof.
  unfold mem. induction l as [|x l IH]; simpl; [discriminate|].
  intros H. apply orb_true_iff in H as [H|H].
  - apply String.eqb_eq in H. subst. left.
  - right. auto.
Qed.

Lemma elem_of_mem (s : string) (l : list string) : s ∈ l → mem s l = true.
Proof.
  unfold mem. induction 1 as [x l|x y l _ IH]; simpl.
  - by rewrite String.eqb_refl.
  - rewrite IH. apply orb_true_r.
Qed.

Lemma distinct_NoDup (l : list string) : distinct l = true → NoDup l.
Proof.
  induction l as [|x l IH]; simpl; [constructor|].
  intros H. apply andb_true_iff in H as [Hx Hl].
  constructor; [|auto].
  intros Hin. apply elem_of_mem in Hin. rewrite Hin in Hx. discriminate.
Qed.

Lemma forallb_Forall {A} (f : A → bool) (P : A → Prop) (l : list A) :
  (∀ x, f x = true → P x) → forallb f l = true → Forall P l.
Proof.
  intros Hf. induction l as [|x l IH]; simpl; [constructor|].
  intros H. apply andb_true_iff in H as [Hx Hl]. constructor; auto.
Qed.

Lemma endpoint_in_sound ns k e :
  endpoint_in ns k e = true → ∃ s, attr k e = Some s ∧ s ∈ ns.
Proof.
  unfold endpoint_in. destruct (attr k e) as [s|]; [|discriminate].
  intros H. exists s. split; [done|]. by apply mem_elem_of.
Qed.

Lemma edge_closed_sound ns e :
  edge_closed ns e = true →
  ∃ s t, attr "source" e = Some s ∧ attr "target" e = Some t ∧ s ∈ ns ∧ t ∈ ns.
Proof.
  unfold edge_closed. intros H. apply andb_true_iff in H as [Hs Ht].
  apply endpoint_in_sound in Hs as (s & Hs & Hsn).
  apply endpoint_in_sound in Ht as (t & Ht & Htn).
  by exists s, t.
Qed.

Lemma contained_sound ns n :
  contained ns n = true →
  ∃ p, attr "parent" n = Some p ∧ (p = canvas ∨ p ∈ ns).
Proof.
  unfold contained. destruct (attr "parent" n) as [p|]; [|discriminate].
  intros H. exists p. split; [done|].
  apply orb_true_iff in H as [H|H].
  - left. by apply String.eqb_eq.
  - right. by apply mem_elem_of.
Qed.

Lemma on_canvas_sound e : on_canvas e = true → attr "parent" e = Some canvas.
Proof.
  unfold on_canvas. destruct (attr "parent" e) as [p|]; [|discriminate].
  intros H. apply String.eqb_eq in H. by subst.
Qed.

(** The reader accepts the document: it is well formed, with a single
    [mxfile] root. *)
Lemma document_well_formed : ∃ d, document = Some d ∧ tag d = "mxfile".
Proof.
  destruct document as [d|] eqn:E.
  - exists d. split; [done|].
    assert (H : (tag <$> document) = Some "mxfile") by (vm_compute; reflexivity).
    rewrite E in H. simpl in H. congruence.
  - exfalso. assert (H : is_Some document) by (vm_compute; eauto).
    rewrite E in H. by destruct H.
Qed.

(** The identifying attributes of the cells hold no reference: they
    read the same with and without the expansion of references. *)
Lemma identifiers_hold_no_reference :
  Forall (λ c, reference_free c = true) cells.
Proof.
  apply (forallb_Forall reference_free); [done|]. vm_compute. reflexivity.
Qed.

(** C2. Referential integrity: every edge of the emitted document has a
    source and a target, and both are identifiers of nodes declared in
    the same document. *)
Theorem edges_reference_declared_nodes :
  Forall (λ e, ∃ s t, attr "source" e = Some s ∧ attr "target" e = Some t ∧
                      s ∈ node_ids ∧ t ∈ node_ids) edges
  ∧ edges ≠ [].
Proof.
  split.
  - apply (forallb_Forall (edge_closed node_ids)).
    + apply edge_closed_sound.
    + vm_compute. reflexivity.
  - intros H. apply (f_equal length) in H. vm_compute in H. discriminate.
Qed.

(** C3. The node identifiers of the emitted document are pairwise
    distinct; so are the node and edge identifiers taken together, and so
    are the identifiers of all cells (the two structural cells ["0"] and
    ["1"] included).  No cell lacks an identifier. *)
Theorem identifiers_unique :
  NoDup node_ids ∧ NoDup (node_ids ++ edge_ids)%list ∧ NoDup cell_ids ∧
  length node_ids = length nodes ∧ length edge_ids = length edges ∧
  length cell_ids = length cells.
Proof.
  split_and!.
  - apply distinct_NoDup. vm_compute. reflexivity.
  - apply distinct_NoDup. vm_compute. reflexivity.
  - apply distinct_NoDup. vm_compute. reflexivity.
  - vm_compute. reflexivity.
  - vm_compute. reflexivity.
  - vm_compute. reflexivity.
Qed.

(** C4. Every node of the emitted document names an owning container,
    and this is the top-level canvas or the identifier of a node declared
    in the same document.  The canvas is a cell of the document and not
    one of its nodes. *)
Theorem node_containers_declared :
  Forall (λ n, ∃ p, attr "parent" n = Some p ∧ (p = canvas ∨ p ∈ node_ids)) nodes
  ∧ nodes ≠ [] ∧ canvas ∈ cell_ids ∧ canvas ∉ node_ids.
Proof.
  split_and!.
  - apply (forallb_Forall (contained node_ids)).
    + apply contained_sound.
    + vm_compute. reflexivity.
  - intros H. apply (f_equal length) in H. vm_compute in H. discriminate.
  - apply mem_elem_of. vm_compute. reflexivity.
  - intros H. apply elem_of_mem in H. vm_compute in H. discriminate.
Qed.

(** C7. Round trip: the reader accepts the emitted document and yields
    16 node cells and 18 edge cells, which are the numbers of cells the
    literal declares with [vertex="1"] and with [edge="1"]; with the two
    structural cells these are all 36 cells the literal declares, and no
    cell is both a node and an edge. *)
Theorem round_trip_counts :
  is_Some document ∧
  length nodes = 16 ∧ length edges = 18 ∧ length cells = 36 ∧
  occurrences (Document.requote " vertex='1'") Document.xml = length nodes ∧
  occurrences (Document.requote " edge='1'") Document.xml = length edges ∧
  occurrences "<mxCell " Document.xml = length cells ∧
  List.filter (λ c, is_vertex c && is_edge c) cells = [].
Proof.
  split_and!; try (vm_compute; reflexivity).
  destruct document_well_formed as (d & Hd & _). rewrite Hd. eauto.
Qed.

(** C9. Every edge of the emitted document is owned by the top-level
    canvas, cell ["1"]; this includes the nine edges that join two nodes
    of the ["bouncer"] container. *)
Theorem edges_owned_by_canvas :
  Forall (λ e, attr "parent" e = Some "1") edges ∧
  ids (internal_edges "bouncer") =
    ["e_px_rt1"; "e_px_rt2"; "e_rt_pool"; "e_api_rt"; "e_api_pool";
     "e_hlth_pool"; "e_pool_met"; "e_cfg_rt"; "e_cfg_pool"] ∧
  Forall (λ e, attr "parent" e = Some "1") (internal_edges "bouncer").
Proof.
  split_and!.
  - apply (forallb_Forall on_canvas); [apply on_canvas_sound|].
    vm_compute. reflexivity.
  - vm_compute. reflexivity.
  - apply (forallb_Forall on_canvas); [apply on_canvas_sound|].
    vm_compute. reflexivity.
Qed.

End DiagramFacts.


(** ** Facts about the calls *)

Module PosixFacts.
Import Posix Behaviour.
Local Open Scope posix_scope.

Lemma world_eq (w w' : world) :
  argv w = argv w' → environ w = environ w' →
  locale_encoding w = locale_encoding w' → buffer_size w = buffer_size w' →
  files w = files w' → readonly w = readonly w' →
  free_space w = free_space w' → opened w = opened w' →
  stdout w = stdout w' → history w = history w' →
  w = w'.
Proof. destruct w, w'. simpl. by intros -> -> -> -> -> -> -> -> -> ->. Qed.

Ltac world_fields :=
  cbn [argv environ locale_encoding buffer_size files readonly free_space
       opened stdout history with_files with_free_space with_opened
       with_stdout with_history fo_path fo_encoding app].

Lemma stat_cons (fs : gmap path entry) (c : string) (up : path) :
  stat fs (c :: up) =
  match stat fs up with Some Dir => fs !! (c :: up) | _ => None end.
Proof. reflexivity. Qed.

(** Path resolution looks only at the path and the directories above
    it. *)
Lemma stat_agree (fs1 fs2 : gmap path entry) (p : path) :
  (∀ q, q `suffix_of` p → fs1 !! q = fs2 !! q) → stat fs1 p = stat fs2 p.
Proof.
  induction p as [|c up IH]; intros H; [done|].
  rewrite !stat_cons, IH.
  - by rewrite (H (c :: up)).
  - intros q Hq. apply H. by apply suffix_cons_r.
Qed.

Lemma stat_insert_ne (fs : gmap path entry) (p q : path) (e : entry) :
  ¬ p `suffix_of` q → stat (<[p := e]> fs) q = stat fs q.
Proof.
  intros H. apply stat_agree. intros q' Hq'.
  apply lookup_insert_ne. by intros ->.
Qed.

Lemma not_suffix_parent (c : string) (p : path) : ¬ (c :: p) `suffix_of` p.
Proof. intros H. apply suffix_length in H. simpl in H. lia. Qed.

Lemma stat_insert_new (fs : gmap path entry) (c : string) (up : path) (e : entry) :
  stat fs up = Some Dir → stat (<[c :: up := e]> fs) (c :: up) = Some e.
Proof.
  intros H. rewrite stat_cons, stat_insert_ne by apply not_suffix_parent.
  rewrite H. apply lookup_insert_eq.
Qed.

Lemma stat_lookup (fs : gmap path entry) (c : string) (up : path) (e : entry) :
  stat fs (c :: up) = Some e → stat fs up = Some Dir ∧ fs !! (c :: up) = Some e.
Proof.
  rewrite stat_cons.
  destruct (stat fs up) as [[|d]|]; [done|discriminate|discriminate].
Qed.

Lemma suffix_cons_cases (q : path) (c : string) (up : path) :
  q `suffix_of` c :: up → q = c :: up ∨ q `suffix_of` up.
Proof.
  intros [k Hk]. destruct k as [|x k]; simpl in Hk.
  - by left.
  - right. injection Hk as _ ->. by exists k.
Qed.

(** Whatever a path resolves to, everything above it is a directory. *)
Lemma stat_above (fs : gmap path entry) (p q : path) (e : entry) :
  stat fs p = Some e → q `suffix_of` p → q ≠ p → stat fs q = Some Dir.
Proof.
  revert e. induction p as [|c up IH]; intros e Hp Hq Hne.
  - apply suffix_nil_inv in Hq. congruence.
  - apply suffix_cons_cases in Hq as [->|Hq]; [done|].
    apply stat_lookup in Hp as [Hup _].
    destruct (decide (q = up)) as [->|Hne']; [done|]. eauto.
Qed.

Lemma grows_refl (p : path) (w : world) : grows p w w.
Proof. split; [by destruct w|]. by left. Qed.

Lemma grows_trans (p p' : path) (w1 w2 w3 : world) :
  p `suffix_of` p' → grows p w1 w2 → grows p' w2 w3 → grows p' w1 w3.
Proof.
  intros Hs [E1 H1] [E2 H2]. split.
  - rewrite E2, E1. by destruct w1.
  - intros q. destruct (H2 q) as [H2q|(H2a & H2b & H2c)].
    + rewrite H2q. destruct (H1 q) as [H1q|(H1a & H1b & H1c)]; [by left|].
      right. split_and!; [done..|]. by etrans.
    + right. split_and!; [|done..].
      destruct (H1 q) as [H1q|(H1a & H1b & H1c)]; congruence.
Qed.

Lemma mkdir_cases (p : path) (w : world) :
  (mkdir p w = (Ok tt, with_files (<[p := Dir]> (files w)) w) ∧
   stat (files w) (parent p) = Some Dir ∧ stat (files w) p = None ∧
   parent p ∉ readonly w) ∨
  (∃ e, mkdir p w = (Raise e, w) ∧ is_OSError e = true).
Proof.
  unfold mkdir.
  destruct (stat (files w) (parent p)) as [[|d]|] eqn:Hup;
    [|right; eauto..].
  destruct (stat (files w) p) as [e|] eqn:Hp; [right; eauto|].
  case_bool_decide; [right; eauto|]. by left.
Qed.

Lemma stat_None_lookup (fs : gmap path entry) (p : path) :
  stat fs (parent p) = Some Dir → stat fs p = None → fs !! p = None.
Proof.
  destruct p as [|c up]; [discriminate|].
  rewrite stat_cons. unfold parent. simpl tail. by intros ->.
Qed.

Lemma mkdir_grows (p : path) (w : world) : grows p w (snd (mkdir p w)).
Proof.
  destruct (mkdir_cases p w) as [(-> & Hup & Hp & _)|(e & -> & _)];
    [|apply grows_refl].
  split; [by destruct w|]. intros q. simpl.
  destruct (decide (p = q)) as [<-|Hne].
  - right. rewrite lookup_insert_eq. split_and!; [|done..].
    by apply stat_None_lookup.
  - left. by rewrite lookup_insert_ne.
Qed.

Lemma mkdir_leaf_grows (p : path) (ok : bool) (w : world) :
  grows p w (snd (mkdir_leaf p ok w)).
Proof.
  pose proof (mkdir_grows p w) as H. unfold mkdir_leaf.
  destruct (mkdir p w) as [[[]|e] w']; simpl in *; [done|].
  by destruct (is_OSError e && ok && isdir w' p).
Qed.

Lemma makedirs_grows (p : path) (ok : bool) (w : world) :
  grows p w (snd (makedirs p ok w)).
Proof.
  revert w. induction p as [|c head IH]; intros w; simpl.
  - apply mkdir_leaf_grows.
  - unfold bind. destruct (exists_ w head).
    + apply mkdir_leaf_grows.
    + specialize (IH w).
      destruct (makedirs head ok w) as [[[]|e] w1]; simpl in IH.
      * eapply grows_trans; [|exact IH|apply mkdir_leaf_grows].
        by apply suffix_cons_r.
      * assert (Hg : grows (c :: head) w w1).
        { eapply grows_trans; [|exact IH|apply grows_refl].
          by apply suffix_cons_r. }
        destruct e; simpl; try exact Hg.
        eapply grows_trans; [|exact IH|apply mkdir_leaf_grows].
        by apply suffix_cons_r.
Qed.

(** After [mkdir_leaf] with [exist_ok] the directory is there, or the
    call raised. *)
Lemma mkdir_leaf_ok (p : path) (w w' : world) :
  mkdir_leaf p true w = (Ok tt, w') → stat (files w') p = Some Dir.
Proof.
  unfold mkdir_leaf.
  destruct (mkdir_cases p w) as [(-> & Hup & Hp & _)|(e & -> & He)].
  - intros [= <-]. simpl. destruct p as [|c up]; [done|].
    by apply stat_insert_new.
  - rewrite He. simpl. unfold isdir.
    destruct (stat (files w) p) as [[|d]|] eqn:E; intros [= <-]; done.
Qed.

Lemma makedirs_ok (p : path) (w w' : world) :
  makedirs p true w = (Ok tt, w') → stat (files w') p = Some Dir.
Proof.
  destruct p as [|c head]; simpl.
  - apply mkdir_leaf_ok.
  - unfold bind. destruct (exists_ w head).
    + apply mkdir_leaf_ok.
    + destruct (makedirs head true w) as [[[]|e] w1].
      * apply mkdir_leaf_ok.
      * destruct e; try discriminate. apply mkdir_leaf_ok.
Qed.

(** Directories that are there already: [makedirs] with [exist_ok]
    succeeds and changes nothing. *)
Lemma makedirs_existing (p : path) (w : world) :
  stat (files w) p = Some Dir → makedirs p true w = (Ok tt, w).
Proof.
  intros Hp.
  assert (Hleaf : mkdir_leaf p true w = (Ok tt, w)).
  { unfold mkdir_leaf.
    destruct (mkdir_cases p w) as [(_ & _ & Hn & _)|(e & -> & He)];
      [congruence|].
    rewrite He. unfold isdir. by rewrite Hp. }
  destruct p as [|c head]; simpl; [done|].
  unfold bind, exists_. apply stat_lookup in Hp as [-> _]. done.
Qed.

Lemma creatable_cons (w : world) (c : string) (head : path) :
  creatable w (c :: head) =
  creatable w head &&
  match files w !! (c :: head) with
  | Some Dir => true
  | Some (File _) => false
  | None => negb (bool_decide (head ∈ readonly w))
  end.
Proof. reflexivity. Qed.

Lemma creatable_stat (w : world) (p : path) (e : entry) :
  creatable w p = true → stat (files w) p = Some e → e = Dir.
Proof.
  destruct p as [|c head]; [simpl; congruence|].
  rewrite creatable_cons, stat_cons.
  intros H Hs. apply andb_true_iff in H as [_ H].
  destruct (stat (files w) head) as [[|d]|]; try discriminate.
  rewrite Hs in H. by destruct e.
Qed.

Lemma makedirs_creatable (p : path) (w : world) :
  creatable w p = true → fst (makedirs p true w) = Ok tt.
Proof.
  revert w. induction p as [|c head IH]; intros w Hc.
  - by rewrite makedirs_existing.
  - rewrite creatable_cons in Hc. apply andb_true_iff in Hc as [Hh Hp].
    simpl makedirs. unfold bind.
    assert (Hleaf : ∀ w1, grows head w w1 → stat (files w1) head = Some Dir →
              fst (mkdir_leaf (c :: head) true w1) = Ok tt).
    { intros w1 [E Hg] Hs.
      assert (Hr : readonly w1 = readonly w) by (rewrite E; by destruct w).
      assert (Hl : files w1 !! (c :: head) = files w !! (c :: head)).
      { destruct (Hg (c :: head)) as [Hq|(_ & _ & Hq)]; [done|].
        by apply not_suffix_parent in Hq. }
      unfold mkdir_leaf, mkdir, isdir, parent. simpl tail.
      rewrite !stat_cons, Hs, Hl, Hr.
      destruct (files w !! (c :: head)) as [[|d]|] eqn:El; [|discriminate|].
      - cbv beta iota. unfold is_OSError. by rewrite stat_cons, Hs, Hl.
      - apply negb_true_iff in Hp. by rewrite Hp. }
    destruct (exists_ w head) eqn:Ex.
    + apply Hleaf; [apply grows_refl|].
      unfold exists_ in Ex. destruct (stat (files w) head) as [e|] eqn:Es; [|done].
      by rewrite (creatable_stat w head e).
    + pose proof (makedirs_grows head true w) as Hg.
      pose proof (IH w Hh) as Hok.
      destruct (makedirs head true w) as [[[]|e] w1] eqn:Em; simpl in *; [|done].
      apply Hleaf; [done|]. by apply makedirs_ok in Em.
Qed.

(** Whatever [makedirs] raises is an [OSError]. *)
Lemma mkdir_leaf_raise (p : path) (ok : bool) (w w' : world) (e : exn) :
  mkdir_leaf p ok w = (Raise e, w') → is_OSError e = true.
Proof.
  unfold mkdir_leaf.
  destruct (mkdir_cases p w) as [(-> & _)|(e' & -> & He)]; [discriminate|].
  destruct (is_OSError e' && ok && isdir w p); [discriminate|].
  by intros [= <- <-].
Qed.

Lemma makedirs_raise (p : path) (ok : bool) (w w' : world) (e : exn) :
  makedirs p ok w = (Raise e, w') → is_OSError e = true.
Proof.
  revert w w' e. induction p as [|c head IH]; intros w w' e; simpl makedirs.
  - apply mkdir_leaf_raise.
  - unfold bind. destruct (exists_ w head); [apply mkdir_leaf_raise|].
    destruct (makedirs head ok w) as [[[]|e1] w1] eqn:Em.
    + apply mkdir_leaf_raise.
    + destruct e1; try (intros [= <- <-]; by eapply IH).
      apply mkdir_leaf_raise.
Qed.

Lemma respects_mkdir (p : path) : respects (mkdir p).
Proof.
  intros w v (Hf & Hr & Hs). unfold mkdir. rewrite Hf, Hr.
  destruct (stat (files v) (parent p)) as [[|d]|]; [|done..].
  destruct (stat (files v) p) as [e|]; [done|].
  case_bool_decide; [done|]. cbn [fst snd status]. unfold same_disk.
  by world_fields.
Qed.

Lemma respects_mkdir_leaf (p : path) (ok : bool) : respects (mkdir_leaf p ok).
Proof.
  intros w v H. destruct (respects_mkdir p w v H) as [Hst Hd].
  unfold mkdir_leaf.
  destruct (mkdir p w) as [[[]|e] w1], (mkdir p v) as [[[]|e'] v1];
    simpl in Hst, Hd; try discriminate; [done|].
  injection Hst as ->.
  assert (isdir w1 p = isdir v1 p) as ->.
  { unfold isdir. by destruct Hd as (-> & _). }
  by destruct (is_OSError e' && ok && isdir v1 p).
Qed.

Lemma respects_makedirs (p : path) (ok : bool) : respects (makedirs p ok).
Proof.
  induction p as [|c head IH]; simpl makedirs; [apply respects_mkdir_leaf|].
  intros w v H. unfold bind.
  assert (exists_ w head = exists_ v head) as ->.
  { unfold exists_. by destruct H as (-> & _). }
  destruct (exists_ v head); [by apply respects_mkdir_leaf|].
  destruct (IH w v H) as [Hst Hd].
  destruct (makedirs head ok w) as [[[]|e] w1],
           (makedirs head ok v) as [[[]|e'] v1];
    simpl in Hst, Hd; try discriminate.
  - by apply respects_mkdir_leaf.
  - injection Hst as ->. destruct e'; try done. by apply respects_mkdir_leaf.
Qed.

Lemma respects_open_w (p : path) : respects (open_w p).
Proof.
  intros w v (Hf & Hr & Hs). unfold open_w. rewrite Hf, Hr, Hs.
  destruct (stat (files v) (parent p)) as [[|d]|]; [|done..].
  destruct (stat (files v) p) as [[|old]|]; [done|..];
    case_bool_decide; try done; cbn [fst snd status]; unfold same_disk;
    world_fields; by rewrite ?Hs.
Qed.

(** A path that resolves to a directory has nothing but directories on
    the way. *)
Lemma stat_dir_creatable (w : world) (p : path) :
  stat (files w) p = Some Dir → creatable w p = true.
Proof.
  induction p as [|c up IH]; [done|].
  intros H. apply stat_lookup in H as [Hup Hp].
  by rewrite creatable_cons, IH, Hp.
Qed.

(** [mkdir_leaf] with [exist_ok] returns only where the parent is a
    directory and the entry is a directory, or is missing and may be
    made. *)
Lemma mkdir_leaf_ok_inv (c : string) (head : path) (w w' : world) :
  mkdir_leaf (c :: head) true w = (Ok tt, w') →
  stat (files w) head = Some Dir ∧
  match files w !! (c :: head) with
  | Some Dir => True
  | Some (File _) => False
  | None => head ∉ readonly w
  end.
Proof.
  unfold mkdir_leaf.
  destruct (mkdir_cases (c :: head) w) as [(-> & Hup & Hp & Hro)|(e & -> & He)].
  - intros _. split; [done|].
    by rewrite (stat_None_lookup _ _ Hup Hp).
  - rewrite He. unfold isdir.
    destruct (stat (files w) (c :: head)) as [[|d]|] eqn:Hs; try discriminate.
    intros _. apply stat_lookup in Hs as [Hup Hp]. by rewrite Hp.
Qed.

(** When [mkdir_leaf] raises [FileExistsError], a file is in the place of
    the directory. *)
Lemma mkdir_leaf_exists (p : path) (w w' : world) :
  mkdir_leaf p true w = (Raise FileExistsError, w') →
  w' = w ∧ ∃ d, stat (files w) p = Some (File d).
Proof.
  unfold mkdir_leaf.
  destruct (mkdir p w) as [[[]|e] w1] eqn:Hm; [discriminate|].
  destruct (is_OSError e && true && isdir w1 p) eqn:Hc; [discriminate|].
  intros [= -> ->]. revert Hm. unfold mkdir.
  destruct (stat (files w) (parent p)) as [[|d0]|]; try discriminate.
  destruct (stat (files w) p) as [[|d]|] eqn:Hs.
  - intros [= <-]. unfold isdir in Hc. by rewrite Hs in Hc.
  - intros [= <-]. eauto.
  - case_bool_decide; discriminate.
Qed.

Lemma makedirs_exists (p : path) (w w' : world) :
  makedirs p true w = (Raise FileExistsError, w') →
  ∃ d, stat (files w') p = Some (File d).
Proof.
  destruct p as [|c head]; simpl makedirs.
  - intros H. by apply mkdir_leaf_exists in H as [-> ?].
  - unfold bind. destruct (exists_ w head).
    + intros H. by apply mkdir_leaf_exists in H as [-> ?].
    + destruct (makedirs head true w) as [[[]|e] w1].
      * intros H. by apply mkdir_leaf_exists in H as [-> ?].
      * destruct e; try discriminate.
        intros H. by apply mkdir_leaf_exists in H as [-> ?].
Qed.

(** [makedirs] with [exist_ok] returns only from a world in which the
    directories can be made. *)
Lemma makedirs_ok_creatable (p : path) (w w' : world) :
  makedirs p true w = (Ok tt, w') → creatable w p = true.
Proof.
  revert w w'. induction p as [|c head IH]; intros w w'; [done|].
  simpl makedirs. unfold bind. rewrite creatable_cons.
  assert (Hentry : ∀ w1, grows head w w1 →
            mkdir_leaf (c :: head) true w1 = (Ok tt, w') →
            match files w !! (c :: head) with
            | Some Dir => true
            | Some (File _) => false
            | None => negb (bool_decide (head ∈ readonly w))
            end = true).
  { intros w1 [E Hg] Hl. apply mkdir_leaf_ok_inv in Hl as [_ Hl].
    assert (Hr : readonly w1 = readonly w) by (rewrite E; by destruct w).
    assert (Hf : files w1 !! (c :: head) = files w !! (c :: head)).
    { destruct (Hg (c :: head)) as [Hq|(_ & _ & Hq)]; [done|].
      by apply not_suffix_parent in Hq. }
    rewrite Hf, Hr in Hl.
    destruct (files w !! (c :: head)) as [[|d]|]; [done|done|].
    by rewrite bool_decide_false. }
  destruct (exists_ w head) eqn:Ex.
  - intros Hl. rewrite (Hentry w (grows_refl _ _) Hl).
    apply mkdir_leaf_ok_inv in Hl as [Hup _].
    by rewrite stat_dir_creatable.
  - pose proof (makedirs_grows head true w) as Hg.
    destruct (makedirs head true w) as [[[]|e] w1] eqn:Hm; simpl in Hg.
    + intros Hl. by rewrite (IH _ _ Hm), (Hentry w1 Hg Hl).
    + destruct e; try discriminate.
      intros Hl. apply makedirs_exists in Hm as [d Hd].
      apply mkdir_leaf_ok_inv in Hl as [Hup _]. congruence.
Qed.

Lemma creatable_suffix (w : world) (p q : path) :
  q `suffix_of` p → creatable w p = true → creatable w q = true.
Proof.
  induction p as [|c up IH]; intros Hq Hc.
  - apply suffix_nil_inv in Hq. by subst.
  - apply suffix_cons_cases in Hq as [->|Hq]; [done|].
    rewrite creatable_cons in Hc. apply andb_true_iff in Hc as [Hc _]. auto.
Qed.

(** A file in the place of a directory on the way: [makedirs] raises. *)
Lemma makedirs_file_in_the_way (p q : path) (d : bytes) (w : world) :
  q `suffix_of` p → stat (files w) q = Some (File d) →
  ∃ e, fst (makedirs p true w) = Raise e.
Proof.
  intros Hq Hs.
  destruct (makedirs p true w) as [[[]|e] w'] eqn:Hm; [|by exists e].
  apply makedirs_ok_creatable in Hm.
  apply (creatable_suffix _ _ _ Hq) in Hm.
  by apply (creatable_stat _ _ _ Hm) in Hs.
Qed.

(** What [flush], [write] and [close] add to the history, and that they
    print nothing. *)
Lemma flush_history (p : path) (bs : bytes) (w : world) :
  history (snd (flush p bs w)) = history w.
Proof.
  unfold flush. destruct (files w !! p) as [[|old]|]; [done| |done].
  by destruct (length bs <=? free_space w)%nat.
Qed.

Lemma write_history (f : file_object) (text : string) (w : world) :
  history (snd (write f text w)) = (history w ++ [CallWrite (fo_path f) text])%list.
Proof.
  unfold write, bind, record. world_fields.
  destruct (pending (fo_path f) (opened w)) as [held|]; [|done].
  destruct (encode (fo_encoding f) text) as [bs|]; [|done].
  destruct (length (held ++ bs) <=? buffer_size w)%nat; [done|].
  match goal with
  | |- context [flush ?p ?b ?v] =>
      pose proof (flush_history p b v) as H;
      destruct (flush p b v) as [[[]|e] w']
  end; exact H.
Qed.

Lemma close_history (f : file_object) (w : world) :
  history (snd (close f w)) = (history w ++ [CallClose (fo_path f)])%list.
Proof.
  unfold close, bind, record. world_fields.
  destruct (pending (fo_path f) (opened w)) as [held|]; [|done].
  by rewrite flush_history.
Qed.

End PosixFacts.

(** ** Facts about a run *)

Module ScriptFacts.
Import Posix Script Behaviour PosixFacts.
Local Open Scope posix_scope.
Local Open Scope nat_scope.

Lemma encode_plain (enc : encoding) (s : string) :
  plain s = true → encode enc s = Some (raw_bytes s).
Proof.
  induction s as [|c rest IH]; simpl; [done|].
  intros H. apply andb_true_iff in H as [Hc Hr].
  unfold encode_char. rewrite Hc, IH by done. done.
Qed.

Lemma raw_bytes_length (s : string) : length (raw_bytes s) = String.length s.
Proof. induction s as [|c rest IH]; simpl; [done|]. by rewrite IH. Qed.

Lemma open_w_raise (p : path) (w w' : world) (e : exn) :
  open_w p w = (Raise e, w') → w' = w ∧ is_OSError e = true.
Proof.
  unfold open_w.
  destruct (stat (files w) (parent p)) as [[|d]|]; [|by intros [= <- <-]..].
  destruct (stat (files w) p) as [[|old]|]; [by intros [= <- <-]|..];
    case_bool_decide; by intros [= <- <-].
Qed.

(** A successful [open_w]: the file is there and empty, the space its
    old content took is free again, and the file is open. *)
Lemma open_w_ok (p : path) (w w' : world) (f : file_object) :
  open_w p w = (Ok f, w') →
  f = FileObject p (locale_encoding w) ∧
  stat (files w) (parent p) = Some Dir ∧
  ∃ n,
    w' = with_opened ((p, []) :: opened w)
           (with_free_space (free_space w + n)
              (with_files (<[p := File []]> (files w)) w)) ∧
    ((stat (files w) p = None ∧ n = 0 ∧ parent p ∉ readonly w) ∨
     (∃ old, stat (files w) p = Some (File old) ∧ n = length old ∧
             p ∉ readonly w)).
Proof.
  unfold open_w.
  destruct (stat (files w) (parent p)) as [[|d]|]; [|discriminate..].
  destruct (stat (files w) p) as [[|old]|]; [discriminate|..];
    case_bool_decide; [discriminate| |discriminate|]; intros [= <- <-];
    (split; [done|]); (split; [done|]).
  - exists (length old). split; [done|]. right. eauto.
  - exists 0. split; [|by left].
    destruct w. unfold with_opened, with_free_space, with_files. simpl.
    f_equal. lia.
Qed.

Lemma pending_head (p : path) (bs : bytes) (rest : list (path * bytes)) :
  pending p ((p, bs) :: rest) = Some bs.
Proof. simpl. by rewrite bool_decide_true. Qed.

Lemma set_pending_head (p : path) (bs old : bytes) (rest : list (path * bytes)) :
  set_pending p bs ((p, old) :: rest) = (p, bs) :: rest.
Proof. simpl. by rewrite bool_decide_true. Qed.

Lemma remove_first_head (p : path) (bs : bytes) (rest : list (path * bytes)) :
  remove_first p ((p, bs) :: rest) = rest.
Proof. simpl. by rewrite bool_decide_true. Qed.

Ltac file_steps :=
  repeat first
    [ progress world_fields
    | rewrite pending_head
    | rewrite set_pending_head
    | rewrite remove_first_head
    | rewrite lookup_insert_eq ].

(** Writing plain text to a file that was just opened, and closing it:
    whether the text waits in the buffer until [close] or goes to the
    disk in [write], the file ends up with the text, or on a full disk
    with what fitted of it, and is no longer open. *)
Lemma write_then_close (f : file_object) (text : string) (w : world)
    (rest : list (path * bytes)) :
  plain text = true →
  opened w = (fo_path f, []) :: rest →
  files w !! fo_path f = Some (File []) →
  try_finally (write f text) (close f) w =
  if length (raw_bytes text) <=? free_space w then
    (Ok (String.length text),
     World (argv w) (environ w) (locale_encoding w) (buffer_size w)
       (<[fo_path f := File (raw_bytes text)]> (files w)) (readonly w)
       (free_space w - length (raw_bytes text)) rest (stdout w)
       (history w ++ [CallWrite (fo_path f) text; CallClose (fo_path f)]))
  else
    (Raise OSError_ENOSPC,
     World (argv w) (environ w) (locale_encoding w) (buffer_size w)
       (<[fo_path f := File (take (free_space w) (raw_bytes text))]> (files w))
       (readonly w) 0 rest (stdout w)
       (history w ++ [CallWrite (fo_path f) text; CallClose (fo_path f)])).
Proof.
  intros Hp Ho Hf.
  unfold try_finally, write, close, bind, record. world_fields.
  rewrite Ho. file_steps. rewrite encode_plain by done. cbn [app].
  destruct (Nat.leb_spec (length (raw_bytes text)) (buffer_size w)) as [Hb|Hb].
  - (* the text waits in the buffer; [close] takes it to the disk *)
    file_steps. unfold flush. file_steps. rewrite Hf. cbn [app].
    destruct (Nat.leb_spec (length (raw_bytes text)) (free_space w)) as [Hs|Hs];
      f_equal; apply world_eq; world_fields; try reflexivity;
      by rewrite <- app_assoc.
  - (* the text goes to the disk in [write] *)
    unfold flush at 1. file_steps. rewrite Hf. cbn [app].
    destruct (Nat.leb_spec (length (raw_bytes text)) (free_space w)) as [Hs|Hs];
      file_steps; unfold flush; file_steps; cbn [length Nat.leb];
      f_equal; apply world_eq; world_fields; try reflexivity;
      rewrite ?insert_insert_eq, ?app_nil_r, ?Nat.sub_0_r, <- ?app_assoc;
      reflexivity.
Qed.

(** *** The script, for any four literals *)

Section Emit.

Variables dname oname msg text : string.
Hypothesis text_plain : plain text = true.

Local Abbreviation emit := (Behaviour.emit dname oname msg text).
Local Abbreviation calls := (Behaviour.calls dname oname msg text).
Local Abbreviation called := (Behaviour.called dname oname msg text).
Local Abbreviation ending := (Behaviour.ending dname oname msg text).
Local Abbreviation dirs_added := (Behaviour.dirs_added dname).
Local Abbreviation can_emit := (Behaviour.can_emit dname oname text).

Lemma emit_ending_of (w w' : world) (r : result unit) :
  emit w = (r, w') → ending w r w'.
Proof.
  unfold Behaviour.emit, os_makedirs.
  unfold bind at 1 2. unfold record at 1.
  change (with_history (history w ++ [CallMakedirs dname true]) w) with (called 1 w).
  pose proof (makedirs_grows (path_of dname) true (called 1 w)) as [E _].
  destruct (makedirs (path_of dname) true (called 1 w)) as [[[]|e] w1] eqn:Hm;
    simpl snd in E.
  2: { intros [= <- <-]. by apply EndMakedirs. }
  set (fs1 := files w1) in *. clearbody fs1. subst w1.
  unfold bind at 1. unfold with_ at 1. unfold bind at 1.
  change (open oname "w") with (record (CallOpen oname "w") >> open_w (path_of oname)).
  unfold bind at 1. unfold record at 1.
  replace (with_history _ (with_files fs1 (called 1 w)))
    with (with_files fs1 (called 2 w)).
  2: { unfold called, with_files, with_history. simpl. by rewrite <- app_assoc. }
  destruct (open_w (path_of oname) (with_files fs1 (called 2 w)))
    as [[f|e] w2] eqn:Ho.
  2: { apply open_w_raise in Ho as Ho'. destruct Ho' as [-> _].
       intros [= <- <-]. by eapply EndOpen. }
  apply open_w_ok in Ho as Ho'. destruct Ho' as (Hf & Hup & n & Hw2 & _).
  pose proof (EndFull w fs1 f w2 Hm Ho) as Hfull.
  pose proof (EndDone w fs1 f w2 Hm Ho) as Hdone.
  clear Hm Ho Hup.
  rewrite (write_then_close f text w2 (opened w)); [|done|by subst|by subst; world_fields; rewrite lookup_insert_eq].
  assert (Hpath : fo_path f = path_of oname) by by subst f.
  rewrite Hpath.
  assert (Hfs : ∀ e, <[path_of oname := e]> (files w2) = <[path_of oname := e]> fs1).
  { intros e. subst w2. world_fields. apply insert_insert_eq. }
  assert (Hrest : argv w2 = argv w ∧ environ w2 = environ w ∧
                  locale_encoding w2 = locale_encoding w ∧
                  buffer_size w2 = buffer_size w ∧ readonly w2 = readonly w ∧
                  stdout w2 = stdout w ∧
                  history w2 = (history w ++ take 2 calls)%list).
  { subst w2. by world_fields. }
  destruct Hrest as (Ha & He & Hl & Hb & Hr & Hs & Hh).
  clear Hw2 Hf Hpath.
  unfold print, bind, record.
  destruct (Nat.leb_spec (length (raw_bytes text)) (free_space w2))
    as [Hle|Hlt]; intros [= <- <-].
  - refine (eq_rect _ (ending w (Ok tt)) (Hdone Hle) _ _).
    apply world_eq; world_fields; try done;
      by rewrite ?Hs, ?Hh, <- ?app_assoc.
  - refine (eq_rect _ (ending w (Raise OSError_ENOSPC)) (Hfull Hlt) _ _).
    apply world_eq; world_fields; try done;
      by rewrite ?Hs, ?Hh, <- ?app_assoc.
Qed.

Lemma emit_ending (w : world) : ending w (fst (emit w)) (snd (emit w)).
Proof. apply emit_ending_of. by destruct (emit w). Qed.

Lemma ending_unique (w : world) (r r' : result unit) (w1 w1' : world) :
  ending w r w1 → ending w r' w1' → r = r' ∧ w1 = w1'.
Proof.
  intros [e a Hm|e fs Hm Ho|fs f a Hm Ho Hlt|fs f a Hm Ho Hle]
         [e' a' Hm'|e' fs' Hm' Ho'|fs' f' a' Hm' Ho' Hlt'|fs' f' a' Hm' Ho' Hle'];
    rewrite Hm in Hm'; try discriminate;
    try (assert (fs' = fs) as ->
           by (apply (f_equal (λ x, files x.2)) in Hm'; done);
         rewrite Ho in Ho'; try discriminate).
  - by injection Hm' as <- <-.
  - by injection Ho' as <-.
  - by injection Ho' as <- <-.
  - injection Ho' as <- <-. lia.
  - injection Ho' as <- <-. lia.
  - by injection Ho' as <- <-.
Qed.

Lemma ending_emit (w : world) (r : result unit) (w' : world) :
  ending w r w' → emit w = (r, w').
Proof.
  intros H. destruct (ending_unique _ _ _ _ _ H (emit_ending w)) as [-> ->].
  by destruct (emit w).
Qed.

(** The directories and the file. *)
Variable leaf : string.
Hypothesis out_in_dir : path_of oname = leaf :: path_of dname.

Lemma out_not_above_dir (q : path) :
  q `suffix_of` path_of dname → q ≠ path_of oname.
Proof.
  intros Hq ->. rewrite out_in_dir in Hq. by apply not_suffix_parent in Hq.
Qed.

Lemma makedirs_dirs_added (w w1 : world) (r : result unit) :
  makedirs (path_of dname) true (called 1 w) = (r, w1) →
  dirs_added (files w) (files w1) ∧
  argv w1 = argv w ∧ environ w1 = environ w ∧
  locale_encoding w1 = locale_encoding w ∧ readonly w1 = readonly w ∧
  free_space w1 = free_space w ∧ opened w1 = opened w ∧
  stdout w1 = stdout w ∧ history w1 = (history w ++ take 1 calls)%list.
Proof.
  intros Hm. pose proof (makedirs_grows (path_of dname) true (called 1 w)) as [E Hg].
  rewrite Hm in E, Hg. simpl snd in *. split; [exact Hg|].
  rewrite E. by world_fields.
Qed.

(** After a run that went well. *)
Lemma emit_done (w : world) :
  fst (emit w) = Ok tt →
  (∀ q, q `suffix_of` path_of dname → stat (files (snd (emit w))) q = Some Dir) ∧
  stat (files (snd (emit w))) (path_of oname) = Some (File (raw_bytes text)) ∧
  (∀ q, q ≠ path_of oname →
        files (snd (emit w)) !! q = files w !! q ∨
        (files w !! q = None ∧ files (snd (emit w)) !! q = Some Dir ∧
         q `suffix_of` path_of dname)) ∧
  stdout (snd (emit w)) = stdout w +:+ msg +:+ newline ∧
  history (snd (emit w)) = (history w ++ calls)%list ∧
  opened (snd (emit w)) = opened w ∧
  ∃ w4, emit w = print msg w4 ∧ files w4 = files (snd (emit w)) ∧
        opened w4 = opened w ∧ stdout w4 = stdout w ∧
        history w4 = (history w ++ take 4 calls)%list.
Proof.
  intros Hok. pose proof (emit_ending w) as He.
  destruct (emit w) as [r w'] eqn:E. simpl in Hok, He |- *. subst r.
  inversion He as [| | |fs1 f w2 Hm Ho Hle Hw']; subst w'; clear He.
  world_fields.
  apply makedirs_ok in Hm as Hdir. simpl files in Hdir.
  apply makedirs_dirs_added in Hm as (Hadd & _). simpl files in Hadd.
  assert (Hstat : ∀ q, q `suffix_of` path_of dname →
            stat (<[path_of oname := File (raw_bytes text)]> fs1) q = Some Dir).
  { intros q Hq. rewrite stat_insert_ne.
    - destruct (decide (q = path_of dname)) as [->|Hne]; [done|].
      by apply (stat_above fs1 (path_of dname) q Dir).
    - intros Hs. rewrite out_in_dir in Hs.
      apply (not_suffix_parent leaf (path_of dname)). by etrans. }
  split_and!; try done.
  - rewrite out_in_dir. by apply stat_insert_new.
  - intros q Hq. rewrite lookup_insert_ne by done. apply Hadd.
  - eexists (World (argv w) (environ w) (locale_encoding w) (buffer_size w)
               (<[path_of oname := File (raw_bytes text)]> fs1)
               (readonly w) (free_space w2 - length (raw_bytes text))
               (opened w) (stdout w) (history w ++ take 4 calls)).
    split_and!; try done.
    unfold print, bind, record. world_fields. f_equal.
    apply world_eq; world_fields; try reflexivity.
    by rewrite <- !app_assoc.
Qed.

(** After a run that raised. *)
Lemma emit_failed (w : world) (e : exn) :
  fst (emit w) = Raise e →
  is_OSError e = true ∧
  stdout (snd (emit w)) = stdout w ∧
  opened (snd (emit w)) = opened w ∧
  ∃ k, (k = 1 ∨ k = 2 ∨ k = 4) ∧
       history (snd (emit w)) = (history w ++ take k calls)%list.
Proof.
  intros Hr. pose proof (emit_ending w) as He.
  destruct (emit w) as [r w'] eqn:E. simpl in Hr, He |- *. subst r.
  inversion He as [e1 w1 Hm|e1 fs1 Hm Ho|fs1 f w2 Hm Ho Hlt|]; subst; clear He.
  - apply makedirs_raise in Hm as Hos.
    apply makedirs_dirs_added in Hm as (_ & _ & _ & _ & _ & _ & Hop & Hout & Hh).
    split_and!; [done..|]. exists 1. split; [lia|done].
  - apply open_w_raise in Ho as [_ Hos].
    split_and!; [done..|]. exists 2. split; [lia|done].
  - split_and!; [done..|]. exists 4. split; [lia|done].
Qed.

(** When the directories cannot be made the run ends there. *)
Lemma emit_makedirs_failed (w : world) (e : exn) :
  fst (os_makedirs dname true w) = Raise e →
  emit w = os_makedirs dname true w ∧
  files (snd (emit w)) !! path_of oname = files w !! path_of oname ∧
  history (snd (emit w)) = (history w ++ [CallMakedirs dname true])%list.
Proof.
  intros Hr.
  assert (E : emit w = os_makedirs dname true w).
  { unfold Behaviour.emit. unfold bind at 1.
    by destruct (os_makedirs dname true w) as [[[]|e1] w1]. }
  rewrite E. split; [done|].
  assert (Em : os_makedirs dname true w =
               makedirs (path_of dname) true (called 1 w)) by done.
  rewrite Em in *.
  destruct (makedirs (path_of dname) true (called 1 w)) as [r w1] eqn:Hm.
  apply makedirs_dirs_added in Hm as (Hadd & _ & _ & _ & _ & _ & _ & _ & Hh).
  split; [|done]. simpl snd.
  destruct (Hadd (path_of oname)) as [Hq|(_ & _ & Hq)]; [done|].
  by apply out_not_above_dir in Hq.
Qed.

(** The run as its calls one after the other: each is made in the world
    the one before it left, what a call raises ends the run, but for
    [close], which is called however [write] ended. *)
Lemma emit_steps (w : world) :
  emit w =
  match os_makedirs dname true w with
  | (Raise e, w1) => (Raise e, w1)
  | (Ok _, w1) =>
      match open oname "w" w1 with
      | (Raise e, w2) => (Raise e, w2)
      | (Ok f, w2) =>
          match close f (snd (write f text w2)) with
          | (Raise e, w4) => (Raise e, w4)
          | (Ok _, w4) =>
              match fst (write f text w2) with
              | Raise e => (Raise e, w4)
              | Ok _ => print msg w4
              end
          end
      end
  end.
Proof.
  unfold Behaviour.emit. unfold bind at 1.
  destruct (os_makedirs dname true w) as [[[]|e] w1]; [|reflexivity].
  unfold bind at 1. unfold with_. unfold bind at 1.
  destruct (open oname "w" w1) as [[f|e] w2]; [|reflexivity].
  unfold try_finally.
  destruct (write f text w2) as [r w3]. cbn [fst snd].
  destruct (close f w3) as [[[]|e] w4]; [|reflexivity].
  destruct r as [n|e]; reflexivity.
Qed.

Lemma os_makedirs_eq (w : world) :
  os_makedirs dname true w = makedirs (path_of dname) true (called 1 w).
Proof. reflexivity. Qed.

Lemma open_eq (w : world) :
  open oname "w" w =
  open_w (path_of oname) (with_history (history w ++ [CallOpen oname "w"]) w).
Proof. reflexivity. Qed.

(** When [open] raises the run ends there, with that exception; the
    entry at the output path is what it was. *)
Lemma emit_open_failed (w : world) (e : exn) :
  fst (os_makedirs dname true w) = Ok tt →
  fst (open oname "w" (snd (os_makedirs dname true w))) = Raise e →
  fst (emit w) = Raise e ∧
  snd (emit w) = snd (open oname "w" (snd (os_makedirs dname true w))) ∧
  files (snd (emit w)) !! path_of oname = files w !! path_of oname ∧
  history (snd (emit w)) = (history w ++ take 2 calls)%list.
Proof.
  intros Hm Ho. rewrite emit_steps.
  destruct (os_makedirs dname true w) as [[[]|e1] w1] eqn:Em; [|discriminate].
  cbn [fst snd] in *.
  destruct (open oname "w" w1) as [[f|e2] w2] eqn:Eo; [discriminate|].
  cbn [fst snd] in *. injection Ho as ->.
  split; [reflexivity|]. split; [reflexivity|].
  rewrite os_makedirs_eq in Em.
  apply makedirs_dirs_added in Em as (Hadd & _ & _ & _ & _ & _ & _ & _ & Hh).
  rewrite open_eq in Eo. apply open_w_raise in Eo as [-> _]. world_fields.
  split.
  - destruct (Hadd (path_of oname)) as [Hq|(_ & _ & Hq)]; [done|].
    by apply out_not_above_dir in Hq.
  - rewrite Hh, <- app_assoc. reflexivity.
Qed.

(** When [write] raises, [close] is still called, and the run ends after
    it with what [write] raised, or with what [close] raised if it raised
    too; when [write] returns and [close] raises, the run ends with
    that. *)
Lemma emit_write_failed (w : world) (e : exn) (f : file_object) :
  fst (os_makedirs dname true w) = Ok tt →
  fst (open oname "w" (snd (os_makedirs dname true w))) = Ok f →
  fst (write f text (snd (open oname "w" (snd (os_makedirs dname true w))))) =
    Raise e ∨
  fst (close f (snd (write f text
         (snd (open oname "w" (snd (os_makedirs dname true w))))))) = Raise e →
  (∃ e', fst (emit w) = Raise e' ∧
         (e' = e ∨
          fst (close f (snd (write f text
                 (snd (open oname "w" (snd (os_makedirs dname true w))))))) =
            Raise e')) ∧
  snd (emit w) =
    snd (close f (snd (write f text
           (snd (open oname "w" (snd (os_makedirs dname true w))))))) ∧
  history (snd (emit w)) = (history w ++ take 4 calls)%list.
Proof.
  intros Hm Ho H. rewrite emit_steps.
  destruct (os_makedirs dname true w) as [[[]|e1] w1] eqn:Em; [|discriminate].
  cbn [fst snd] in *.
  destruct (open oname "w" w1) as [[f'|e2] w2] eqn:Eo; [|discriminate].
  cbn [fst snd] in *. injection Ho as ->.
  pose proof (close_history f (snd (write f text w2))) as Hc.
  rewrite write_history in Hc.
  rewrite os_makedirs_eq in Em.
  apply makedirs_dirs_added in Em as (_ & _ & _ & _ & _ & _ & _ & _ & Hh).
  rewrite open_eq in Eo. apply open_w_ok in Eo as (Hf & _ & n & Hw2 & _).
  assert (Hh2 : history w2 = (history w ++ take 2 calls)%list).
  { rewrite Hw2. world_fields. rewrite Hh, <- app_assoc. reflexivity. }
  assert (Hp : fo_path f = path_of oname) by (rewrite Hf; reflexivity).
  rewrite Hh2, Hp, <- !app_assoc in Hc.
  clear Hw2 Hf Hh Hh2 Hp.
  destruct (close f (snd (write f text w2))) as [[[]|ec] w4]; cbn [fst snd] in *.
  - destruct H as [H|H]; [|discriminate]. rewrite H. cbn [fst snd].
    split; [exists e; split; [reflexivity|by left]|]. split; [reflexivity|exact Hc].
  - split; [exists ec; split; [reflexivity|by right]|].
    split; [reflexivity|exact Hc].
Qed.

(** A directory in the place of the output: [open] raises. *)
Lemma emit_onto_directory (w : world) :
  stat (files w) (path_of oname) = Some Dir →
  fst (emit w) = Raise IsADirectoryError.
Proof.
  intros Hs.
  assert (Hd : stat (files w) (path_of dname) = Some Dir).
  { rewrite out_in_dir in Hs. by apply stat_lookup in Hs as [? _]. }
  assert (Hm : os_makedirs dname true w = (Ok tt, called 1 w)).
  { rewrite os_makedirs_eq. by apply makedirs_existing. }
  apply emit_open_failed; rewrite Hm; [reflexivity|]. cbn [snd].
  rewrite open_eq. unfold open_w, Behaviour.called. world_fields.
  rewrite out_in_dir in Hs |- *. unfold parent. simpl tail.
  rewrite Hd, Hs. reflexivity.
Qed.

(** A file in the place of a directory above the output: [os.makedirs]
    raises. *)
Lemma emit_file_in_the_way (w : world) (q : path) (d : bytes) :
  q `suffix_of` path_of dname → stat (files w) q = Some (File d) →
  ∃ e, fst (os_makedirs dname true w) = Raise e.
Proof.
  intros Hq Hs. rewrite os_makedirs_eq.
  by apply (makedirs_file_in_the_way _ q d).
Qed.

(** The confirmation is printed by a run that went well, and by no
    other. *)
Lemma emit_confirmed (w : world) :
  stdout (snd (emit w)) ≠ stdout w → fst (emit w) = Ok tt.
Proof.
  intros Hne. destruct (fst (emit w)) as [[]|e] eqn:E; [done|].
  by apply emit_failed in E as (_ & Hs & _).
Qed.

Lemma creatable_ext (w v : world) (p : path) :
  files w = files v → readonly w = readonly v →
  creatable w p = creatable v p.
Proof.
  intros Hf Hr. induction p as [|c head IH]; [done|].
  by rewrite !creatable_cons, IH, Hf, Hr.
Qed.

Lemma emit_succeeds (w : world) : can_emit w = true → fst (emit w) = Ok tt.
Proof.
  unfold Behaviour.can_emit. intros H. apply andb_true_iff in H as [Hc Hf].
  assert (Hm : fst (makedirs (path_of dname) true (called 1 w)) = Ok tt).
  { apply makedirs_creatable. by rewrite (creatable_ext _ w). }
  assert (Hopen : ∀ fs1, dirs_added (files w) fs1 →
            stat fs1 (path_of dname) = Some Dir →
            ∃ f w2, open_w (path_of oname) (with_files fs1 (called 2 w)) = (Ok f, w2) ∧
                    String.length text <= free_space w2).
  { intros fs1 Hadd Hdir.
    assert (Hl : fs1 !! path_of oname = files w !! path_of oname).
    { destruct (Hadd (path_of oname)) as [Hq|(_ & _ & Hq)]; [done|].
      by apply out_not_above_dir in Hq. }
    unfold open_w, called. world_fields. rewrite out_in_dir.
    unfold parent. simpl tail.
    rewrite stat_cons, Hdir, <- out_in_dir, Hl.
    destruct (files w !! path_of oname) as [[|old]|]; [done|..];
      apply andb_true_iff in Hf as [Hro Hsp];
      apply negb_true_iff, bool_decide_eq_false in Hro;
      apply Nat.leb_le in Hsp.
    - rewrite bool_decide_false by done. cbv iota.
      eexists _, _. split; [reflexivity|]. world_fields. lia.
    - rewrite bool_decide_false by done. cbv iota.
      eexists _, _. split; [reflexivity|]. world_fields. lia. }
  pose proof (emit_ending w) as He.
  destruct (emit w) as [r w'] eqn:E. simpl in He |- *.
  inversion He as [e1 w1 Hm1|e1 fs1 Hm1 Ho|fs1 f w2 Hm1 Ho Hlt|]; subst;
    clear He; [| | |done].
  - rewrite Hm1 in Hm. discriminate.
  - apply makedirs_ok in Hm1 as Hdir.
    apply makedirs_dirs_added in Hm1 as (Hadd & _).
    destruct (Hopen fs1 Hadd Hdir) as (f & w2 & Ho' & _). congruence.
  - apply makedirs_ok in Hm1 as Hdir.
    apply makedirs_dirs_added in Hm1 as (Hadd & _).
    destruct (Hopen fs1 Hadd Hdir) as (f' & w2' & Ho' & Hsp).
    rewrite Ho in Ho'. injection Ho' as <- <-.
    rewrite raw_bytes_length in Hlt. lia.
Qed.

(** Worlds that hold the same disk: the run ends the same way and
    leaves the same files. *)
Lemma ending_same_disk (w v : world) (r : result unit) (w' : world) :
  same_disk w v → ending w r w' →
  ∃ v', ending v r v' ∧ files v' = files w'.
Proof.
  intros Hd He.
  assert (Hd1 : same_disk (called 1 w) (called 1 v)) by done.
  destruct (respects_makedirs (path_of dname) true _ _ Hd1) as [Hst Hdm].
  pose proof (makedirs_grows (path_of dname) true (called 1 v)) as [Ev _].
  destruct (makedirs (path_of dname) true (called 1 v)) as [rv v1] eqn:Hmv.
  simpl snd in *. simpl fst in *.
  assert (Hopen : ∀ fs1, same_disk (with_files fs1 (called 2 w))
                                   (with_files fs1 (called 2 v))).
  { intros fs1. destruct Hd as (_ & Hr & Hs). by split_and!. }
  destruct He as [e w1 Hm|e fs1 Hm Ho|fs1 f w2 Hm Ho Hlt|fs1 f w2 Hm Ho Hle];
    rewrite Hm in Hst, Hdm; simpl in Hst, Hdm.
  - destruct rv as [[]|e']; [done|]. injection Hst as <-.
    exists v1. split; [by apply EndMakedirs|]. by destruct Hdm as (-> & _).
  - destruct rv as [[]|e']; [|done]. destruct Hdm as (Hf1 & _).
    rewrite Ev, <- Hf1 in Hmv.
    destruct (respects_open_w (path_of oname) _ _ (Hopen fs1)) as [Hso _].
    rewrite Ho in Hso. simpl in Hso.
    destruct (open_w (path_of oname) (with_files fs1 (called 2 v)))
      as [[f'|e'] v2] eqn:Hov; [done|]. injection Hso as <-.
    apply open_w_raise in Hov as Hv2. destruct Hv2 as [-> _].
    eexists. split; [by eapply EndOpen|done].
  - destruct rv as [[]|e']; [|done]. destruct Hdm as (Hf1 & _).
    rewrite Ev, <- Hf1 in Hmv.
    destruct (respects_open_w (path_of oname) _ _ (Hopen fs1)) as [Hso Hdo].
    rewrite Ho in Hso, Hdo. simpl in Hso, Hdo.
    destruct (open_w (path_of oname) (with_files fs1 (called 2 v)))
      as [[f'|e'] v2] eqn:Hov; [|done].
    destruct Hdo as (_ & _ & Hsp). simpl in Hsp.
    eexists. split; [eapply EndFull; [done..|lia]|].
    world_fields. by rewrite Hsp.
  - destruct rv as [[]|e']; [|done]. destruct Hdm as (Hf1 & _).
    rewrite Ev, <- Hf1 in Hmv.
    destruct (respects_open_w (path_of oname) _ _ (Hopen fs1)) as [Hso Hdo].
    rewrite Ho in Hso, Hdo. simpl in Hso, Hdo.
    destruct (open_w (path_of oname) (with_files fs1 (called 2 v)))
      as [[f'|e'] v2] eqn:Hov; [|done].
    destruct Hdo as (_ & _ & Hsp). simpl in Hsp.
    eexists. split; [eapply EndDone; [done..|lia]|]. done.
Qed.

Lemma emit_same_disk (w v : world) :
  same_disk w v →
  fst (emit w) = fst (emit v) ∧ files (snd (emit w)) = files (snd (emit v)).
Proof.
  intros Hd.
  destruct (ending_same_disk w v _ _ Hd (emit_ending w)) as (v' & He & Hf).
  apply ending_emit in He. rewrite He. by simpl.
Qed.

End Emit.

(** A second run after one that went well leaves the file system as the
    first left it. *)
Lemma emit_again (dname oname msg text leaf : string) (w : world) :
  plain text = true →
  path_of oname = leaf :: path_of dname →
  fst (emit dname oname msg text w) = Ok tt →
  files (snd (emit dname oname msg text (snd (emit dname oname msg text w)))) =
  files (snd (emit dname oname msg text w)).
Proof.
  intros Hp Hout Hok.
  destruct (emit_done dname oname msg text Hp leaf Hout w Hok)
    as (Hdirs & Hfile & _).
  set (w' := snd (emit dname oname msg text w)) in *. clearbody w'.
  assert (Hdir : stat (files w') (path_of dname) = Some Dir) by by apply Hdirs.
  assert (Hm : makedirs (path_of dname) true (called dname oname msg text 1 w') =
               (Ok tt, called dname oname msg text 1 w'))
    by by apply makedirs_existing.
  assert (Hl : files w' !! path_of oname = Some (File (raw_bytes text))).
  { rewrite Hout in Hfile |- *. by apply stat_lookup in Hfile as [_ ?]. }
  pose proof (emit_ending dname oname msg text Hp w') as He.
  destruct (emit dname oname msg text w') as [r w''].
  simpl in He |- *.
  inversion He as [e1 w1 Hm1|e1 fs1 Hm1 Ho|fs1 f w2 Hm1 Ho Hlt|fs1 f w2 Hm1 Ho Hle];
    subst; clear He; rewrite Hm in Hm1; try discriminate;
    apply (f_equal (λ x, files x.2)) in Hm1; simpl in Hm1; subst fs1.
  - done.
  - exfalso. apply open_w_ok in Ho as (_ & _ & n & -> & [(Hn & _)|(old & Ho & -> & _)]).
    + world_fields. simpl in Hn. congruence.
    + simpl in Ho. rewrite Hfile in Ho. injection Ho as <-.
      revert Hlt. world_fields. lia.
  - world_fields. by apply insert_id.
Qed.

(** *** The run of the script *)

Lemma run_emit (w : world) : run w = emit docs_name out_name confirmation xml w.
Proof. reflexivity. Qed.

Lemma xml_plain : plain xml = true.
Proof. vm_compute. reflexivity. Qed.

Lemma out_in_docs : path_of out_name = "architecture.drawio" :: path_of docs_name.
Proof. vm_compute. reflexivity. Qed.

(** C1. The emitted document is a constant.  Any two runs that go well,
    in whatever worlds, leave the same bytes in the output file, those of
    the literal.  Two runs on the same disk end the same way and leave
    the same files whatever the arguments, the environment, the locale
    and the output so far are: none of them is consulted.  And a second
    run after one that went well leaves the file system as the first
    left it. *)
Theorem emitted_document_is_constant (w v : world) :
  (fst (run w) = Ok tt → fst (run v) = Ok tt →
     files (snd (run w)) !! out = Some (File document_bytes) ∧
     files (snd (run v)) !! out = files (snd (run w)) !! out) ∧
  (same_disk w v →
     fst (run w) = fst (run v) ∧ files (snd (run w)) = files (snd (run v))) ∧
  (fst (run w) = Ok tt →
     files (snd (run (snd (run w)))) = files (snd (run w))).
Proof.
  assert (Hfile : ∀ u, fst (run u) = Ok tt →
            files (snd (run u)) !! out = Some (File document_bytes)).
  { intros u Hu. rewrite run_emit in Hu |- *.
    destruct (emit_done _ _ _ _ xml_plain _ out_in_docs u Hu) as (_ & Hf & _).
    rewrite out_in_docs in Hf. apply stat_lookup in Hf as [_ Hf].
    unfold out. by rewrite out_in_docs. }
  split_and!.
  - intros Hw Hv. by rewrite !Hfile.
  - rewrite !run_emit. by apply emit_same_disk, xml_plain.
  - rewrite !run_emit. by apply (emit_again _ _ _ _ _ _ xml_plain out_in_docs).
Qed.

(** C5. A run that goes well has made the directories above the output
    path, which is directly inside the directory given to [os.makedirs]:
    afterwards all of them are directories.  The output file then holds
    exactly the document, whatever it held before; everything else in the
    file system is as it was, but for directories made where nothing was:
    no copy of an older file is kept.  Nothing is printed but the
    confirmation.  And the run does go well whenever no file is in the
    way of a directory, what is missing may be made, and the output can
    be created, or overwritten, with room for the document: directories
    that are there already are no obstacle. *)
Theorem creates_directories_and_overwrites (w : world) :
  parent out = docs ∧
  (fst (run w) = Ok tt →
     (∀ q, q `suffix_of` docs → stat (files (snd (run w))) q = Some Dir) ∧
     stat (files (snd (run w))) out = Some (File document_bytes) ∧
     (∀ q, q ≠ out →
           files (snd (run w)) !! q = files w !! q ∨
           (files w !! q = None ∧ files (snd (run w)) !! q = Some Dir ∧
            q `suffix_of` docs)) ∧
     stdout (snd (run w)) = stdout w +:+ confirmation +:+ newline ∧
     history (snd (run w)) = (history w ++ script_calls)%list) ∧
  (can_run w = true → fst (run w) = Ok tt).
Proof.
  split_and!.
  - unfold out. by rewrite out_in_docs.
  - rewrite run_emit. intros Hok.
    destruct (emit_done _ _ _ _ xml_plain _ out_in_docs w Hok)
      as (H1 & H2 & H3 & H4 & H5 & _).
    by split_and!.
  - rewrite run_emit. by apply (emit_succeeds _ _ _ _ xml_plain _ out_in_docs).
Qed.

(** C6. Whichever call fails, the failure is fatal.  When [os.makedirs]
    raises, the run ends there with that exception, and the entry at the
    output path is what it was.  When [open] raises, the run ends there
    with that exception, and the entry at the output path is what it was.
    When [write] raises, [close] is still called, by the [with] statement,
    and the run ends after it, with what [write] raised, or what [close]
    raised if it raised too; when [write] returns and [close] raises, the
    run ends with that.  Each time the exit status is 1, no call is made
    twice and none is made after the failure: nothing is tried again and
    nothing is done to recover.  A run that raises, whatever it raises,
    raises an [OSError], prints nothing, leaves the open files as they
    were at the start, and has made the first one, two or four calls of a
    run that goes well.  On the disk: a directory in the place of the
    output makes [open] raise [IsADirectoryError] and the run with it, and
    a file in the place of a directory above the output makes
    [os.makedirs] raise and the run end there. *)
Theorem filesystem_failure_is_fatal (w : world) (e : exn) :
  (fst (step_makedirs w) = Raise e →
     run w = step_makedirs w ∧
     exit_status (fst (run w)) = 1 ∧
     files (snd (run w)) !! out = files w !! out ∧
     history (snd (run w)) = (history w ++ [CallMakedirs docs_name true])%list) ∧
  (fst (step_makedirs w) = Ok tt → fst (step_open w) = Raise e →
     fst (run w) = Raise e ∧
     snd (run w) = snd (step_open w) ∧
     exit_status (fst (run w)) = 1 ∧
     files (snd (run w)) !! out = files w !! out ∧
     history (snd (run w)) = (history w ++ take 2 script_calls)%list) ∧
  (∀ f, fst (step_makedirs w) = Ok tt → fst (step_open w) = Ok f →
     fst (step_write f w) = Raise e ∨ fst (step_close f w) = Raise e →
     (∃ e', fst (run w) = Raise e' ∧
            (e' = e ∨ fst (step_close f w) = Raise e')) ∧
     snd (run w) = snd (step_close f w) ∧
     exit_status (fst (run w)) = 1 ∧
     history (snd (run w)) = (history w ++ take 4 script_calls)%list) ∧
  (fst (run w) = Raise e →
     is_OSError e = true ∧
     stdout (snd (run w)) = stdout w ∧
     opened (snd (run w)) = opened w ∧
     ∃ k, (k = 1 ∨ k = 2 ∨ k = 4) ∧
          history (snd (run w)) = (history w ++ take k script_calls)%list) ∧
  (stat (files w) out = Some Dir → fst (run w) = Raise IsADirectoryError) ∧
  (∀ q d, q `suffix_of` docs → stat (files w) q = Some (File d) →
     run w = step_makedirs w ∧ exit_status (fst (run w)) = 1).
Proof.
  unfold step_close, step_write, step_open, step_makedirs.
  split_and!.
  - intros Hm. rewrite run_emit.
    destruct (emit_makedirs_failed _ _ confirmation xml _ out_in_docs w e Hm)
      as (H1 & H2 & H3).
    split_and!; [exact H1| |exact H2|exact H3].
    rewrite H1, Hm. reflexivity.
  - intros Hm Ho. rewrite run_emit.
    destruct (emit_open_failed _ _ confirmation xml _ out_in_docs w e Hm Ho)
      as (H1 & H2 & H3 & H4).
    split_and!; [exact H1|exact H2| |exact H3|exact H4].
    rewrite H1. reflexivity.
  - intros f Hm Ho Hw. rewrite run_emit.
    destruct (emit_write_failed _ _ confirmation xml w e f Hm Ho Hw)
      as ((e' & H1 & H1') & H2 & H3).
    split_and!; [exists e'; split; [exact H1|exact H1']|exact H2| |exact H3].
    rewrite H1. reflexivity.
  - intros Hr. rewrite run_emit in Hr |- *.
    exact (emit_failed _ _ _ _ xml_plain w e Hr).
  - rewrite run_emit. apply (emit_onto_directory _ _ _ _ _ out_in_docs).
  - intros q d Hq Hs. rewrite run_emit.
    destruct (emit_file_in_the_way docs_name out_name confirmation xml w q d Hq Hs) as (e' & Hm).
    destruct (emit_makedirs_failed _ _ confirmation xml _ out_in_docs w e' Hm)
      as (H1 & _).
    split; [exact H1|]. rewrite H1, Hm. reflexivity.
Qed.

(** C8. A run that goes well prints one line, ["Created "] followed by
    a path name, and this is the very name it gave to [open]: the file of
    that name holds the document. *)
Theorem confirmation_names_written_path (w : world) :
  fst (run w) = Ok tt →
  stdout (snd (run w)) = stdout w +:+ ("Created " +:+ out_name) +:+ newline ∧
  history (snd (run w)) =
    (history w ++
     [CallMakedirs docs_name true; CallOpen out_name "w";
      CallWrite (path_of out_name) xml; CallClose (path_of out_name);
      CallPrint ("Created " +:+ out_name)])%list ∧
  stat (files (snd (run w))) (path_of out_name) = Some (File document_bytes).
Proof.
  rewrite run_emit. intros Hok.
  destruct (emit_done _ _ _ _ xml_plain _ out_in_docs w Hok)
    as (_ & H2 & _ & H4 & H5 & _).
  by split_and!.
Qed.

(** C10. When the confirmation appears on the standard output, the run
    went well, and [print] was its last call, made after [write] and
    [close] returned: the world in which [print] is called already has
    the whole document in the output file, and its open files are those
    there were at the start: the file object of the run, and with it the
    buffer, is gone. *)
Theorem confirmation_follows_write_and_close (w : world) :
  stdout (snd (run w)) ≠ stdout w →
  fst (run w) = Ok tt ∧
  history (snd (run w)) = (history w ++ script_calls)%list ∧
  ∃ w4, run w = print confirmation w4 ∧
        stat (files w4) out = Some (File document_bytes) ∧
        opened w4 = opened w ∧
        stdout w4 = stdout w ∧
        history w4 = (history w ++ take 4 script_calls)%list.
Proof.
  rewrite run_emit. intros Hne.
  apply (emit_confirmed _ _ _ _ xml_plain) in Hne as Hok.
  destruct (emit_done _ _ _ _ xml_plain _ out_in_docs w Hok)
    as (_ & H2 & _ & _ & H5 & _ & w4 & Hp & Hf & Ho & Hs & Hh).
  split_and!; [done..|].
  exists w4. split_and!; try done. by rewrite Hf.
Qed.

(** *** The theorems at work on the sample worlds *)

(** C1 on an empty disk, seen from two processes that differ in their
    arguments, environment and locale. *)
Lemma constant_document_on_fresh_disk :
  same_disk Worlds.fresh Worlds.fresh_elsewhere ∧
  fst (run Worlds.fresh) = Ok tt ∧
  fst (run Worlds.fresh_elsewhere) = Ok tt ∧
  files (snd (run Worlds.fresh)) !! out = Some (File document_bytes) ∧
  files (snd (run Worlds.fresh_elsewhere)) !! out =
    files (snd (run Worlds.fresh)) !! out ∧
  files (snd (run Worlds.fresh)) = files (snd (run Worlds.fresh_elsewhere)) ∧
  files (snd (run (snd (run Worlds.fresh)))) = files (snd (run Worlds.fresh)).
Proof.
  destruct (emitted_document_is_constant Worlds.fresh Worlds.fresh_elsewhere)
    as (H1 & H2 & H3).
  assert (Hd : same_disk Worlds.fresh Worlds.fresh_elsewhere)
    by (split_and!; reflexivity).
  assert (Hw : fst (run Worlds.fresh) = Ok tt) by (vm_compute; reflexivity).
  assert (Hv : fst (run Worlds.fresh_elsewhere) = Ok tt)
    by (vm_compute; reflexivity).
  destruct (H1 Hw Hv) as [Hfile Hsame].
  destruct (H2 Hd) as [_ Hfiles].
  split_and!;
    [exact Hd|exact Hw|exact Hv|exact Hfile|exact Hsame|exact Hfiles
    |exact (H3 Hw)].
Defined.

(** C5 where the directories are there and an older file is in the
    place of the output. *)
Lemma overwrites_stale_file :
  can_run Worlds.stale = true ∧
  fst (run Worlds.stale) = Ok tt ∧
  stat (files (snd (run Worlds.stale))) out = Some (File document_bytes) ∧
  stdout (snd (run Worlds.stale)) = confirmation +:+ newline.
Proof.
  destruct (creates_directories_and_overwrites Worlds.stale) as (_ & Hpost & Hrun).
  assert (Hc : can_run Worlds.stale = true) by (vm_compute; reflexivity).
  destruct (Hpost (Hrun Hc)) as (_ & Hfile & _ & Hout & _).
  split_and!; [exact Hc|exact (Hrun Hc)|exact Hfile|exact Hout].
Defined.

(** C6 on five disks: nothing may be created under the root
    ([os.makedirs] raises); a file is in the place of the first directory
    ([os.makedirs] raises); a directory is in the place of the output
    ([open] raises); the disk is full, which [write] finds out with the
    smaller buffer and [close] with the larger. *)
Lemma fatal_whichever_call_raises :
  (fst (step_makedirs Worlds.locked) = Raise PermissionError ∧
   run Worlds.locked = step_makedirs Worlds.locked ∧
   exit_status (fst (run Worlds.locked)) = 1 ∧
   files (snd (run Worlds.locked)) !! out = None ∧
   history (snd (run Worlds.locked)) = [CallMakedirs docs_name true]) ∧
  (stat (files MoreWorlds.blocked) ["Users"] =
     Some (File (raw_bytes "not a directory")) ∧
   run MoreWorlds.blocked = step_makedirs MoreWorlds.blocked ∧
   exit_status (fst (run MoreWorlds.blocked)) = 1) ∧
  (fst (step_makedirs MoreWorlds.occupied) = Ok tt ∧
   fst (step_open MoreWorlds.occupied) = Raise IsADirectoryError ∧
   stat (files MoreWorlds.occupied) out = Some Dir ∧
   fst (run MoreWorlds.occupied) = Raise IsADirectoryError ∧
   exit_status (fst (run MoreWorlds.occupied)) = 1 ∧
   files (snd (run MoreWorlds.occupied)) !! out = Some Dir ∧
   stdout (snd (run MoreWorlds.occupied)) = "" ∧
   history (snd (run MoreWorlds.occupied)) = take 2 script_calls) ∧
  (fst (step_open Worlds.full) = Ok (FileObject out UTF8) ∧
   fst (step_write (FileObject out UTF8) Worlds.full) = Raise OSError_ENOSPC ∧
   exit_status (fst (run Worlds.full)) = 1 ∧
   snd (run Worlds.full) = snd (step_close (FileObject out UTF8) Worlds.full) ∧
   history (snd (run Worlds.full)) = take 4 script_calls) ∧
  (fst (step_write (FileObject out UTF8) Worlds.full_at_close) =
     Ok (String.length xml) ∧
   fst (step_close (FileObject out UTF8) Worlds.full_at_close) =
     Raise OSError_ENOSPC ∧
   fst (run Worlds.full_at_close) = Raise OSError_ENOSPC ∧
   exit_status (fst (run Worlds.full_at_close)) = 1 ∧
   stdout (snd (run Worlds.full_at_close)) = "").
Proof.
  refine (conj _ (conj _ (conj _ (conj _ _)))).
  - destruct (filesystem_failure_is_fatal Worlds.locked PermissionError)
      as (Hmk & _).
    assert (Hm : fst (step_makedirs Worlds.locked) = Raise PermissionError)
      by (vm_compute; reflexivity).
    destruct (Hmk Hm) as (Hrun & Hexit & Hfile & Hhist).
    split_and!; [exact Hm|exact Hrun|exact Hexit|exact Hfile|exact Hhist].
  - destruct (filesystem_failure_is_fatal MoreWorlds.blocked ValueError)
      as (_ & _ & _ & _ & _ & Hway).
    assert (Hq : ["Users"] `suffix_of` docs)
      by (exists (take 6 docs); vm_compute; reflexivity).
    assert (Hs : stat (files MoreWorlds.blocked) ["Users"] =
                 Some (File (raw_bytes "not a directory")))
      by (vm_compute; reflexivity).
    destruct (Hway _ _ Hq Hs) as (Hrun & Hexit).
    split_and!; [exact Hs|exact Hrun|exact Hexit].
  - destruct (filesystem_failure_is_fatal MoreWorlds.occupied IsADirectoryError)
      as (_ & Hopen & _ & Hrun & Hdir & _).
    assert (Hm : fst (step_makedirs MoreWorlds.occupied) = Ok tt)
      by (vm_compute; reflexivity).
    assert (Ho : fst (step_open MoreWorlds.occupied) = Raise IsADirectoryError)
      by (vm_compute; reflexivity).
    assert (Hs : stat (files MoreWorlds.occupied) out = Some Dir)
      by (vm_compute; reflexivity).
    destruct (Hopen Hm Ho) as (Hr & _ & Hexit & Hfile & Hhist).
    destruct (Hrun Hr) as (_ & Hout & _).
    split_and!;
      [exact Hm|exact Ho|exact Hs|exact (Hdir Hs)|exact Hexit|exact Hfile
      |exact Hout|exact Hhist].
  - destruct (filesystem_failure_is_fatal Worlds.full OSError_ENOSPC)
      as (_ & _ & Hwrite & _).
    assert (Hm : fst (step_makedirs Worlds.full) = Ok tt)
      by (vm_compute; reflexivity).
    assert (Ho : fst (step_open Worlds.full) = Ok (FileObject out UTF8))
      by (vm_compute; reflexivity).
    assert (Hw : fst (step_write (FileObject out UTF8) Worlds.full) =
                 Raise OSError_ENOSPC) by (vm_compute; reflexivity).
    destruct (Hwrite _ Hm Ho (or_introl Hw)) as (_ & Hsnd & Hexit & Hhist).
    split_and!; [exact Ho|exact Hw|exact Hexit|exact Hsnd|exact Hhist].
  - destruct (filesystem_failure_is_fatal Worlds.full_at_close OSError_ENOSPC)
      as (_ & _ & Hwrite & Hrun & _).
    assert (Hm : fst (step_makedirs Worlds.full_at_close) = Ok tt)
      by (vm_compute; reflexivity).
    assert (Ho : fst (step_open Worlds.full_at_close) = Ok (FileObject out UTF8))
      by (vm_compute; reflexivity).
    assert (Hw : fst (step_write (FileObject out UTF8) Worlds.full_at_close) =
                 Ok (String.length xml)) by (vm_compute; reflexivity).
    assert (Hc : fst (step_close (FileObject out UTF8) Worlds.full_at_close) =
                 Raise OSError_ENOSPC) by (vm_compute; reflexivity).
    destruct (Hwrite _ Hm Ho (or_intror Hc)) as ((e' & Hr & He) & _ & Hexit & _).
    assert (Hr' : fst (run Worlds.full_at_close) = Raise OSError_ENOSPC).
    { destruct He as [->|He]; [exact Hr|].
      rewrite Hc in He. injection He as <-. exact Hr. }
    destruct (Hrun Hr') as (_ & Hout & _).
    split_and!; [exact Hw|exact Hc|exact Hr'|exact Hexit|exact Hout].
Defined.

(** C8 on an empty disk. *)
Lemma confirmation_on_fresh_disk :
  fst (run Worlds.fresh) = Ok tt ∧
  stdout (snd (run Worlds.fresh)) = ("Created " +:+ out_name) +:+ newline ∧
  stat (files (snd (run Worlds.fresh))) (path_of out_name) =
    Some (File document_bytes).
Proof.
  assert (Hw : fst (run Worlds.fresh) = Ok tt) by (vm_compute; reflexivity).
  destruct (confirmation_names_written_path Worlds.fresh Hw) as (Hout & _ & Hfile).
  split_and!; [exact Hw|exact Hout|exact Hfile].
Defined.

(** C10 on an empty disk. *)
Lemma confirmed_run_on_fresh_disk :
  stdout (snd (run Worlds.fresh)) ≠ stdout Worlds.fresh ∧
  fst (run Worlds.fresh) = Ok tt ∧
  history (snd (run Worlds.fresh)) = script_calls.
Proof.
  assert (Hne : stdout (snd (run Worlds.fresh)) ≠ stdout Worlds.fresh)
    by (vm_compute; discriminate).
  destruct (confirmation_follows_write_and_close Worlds.fresh Hne) as (Hok & Hh & _).
  split_and!; [exact Hne|exact Hok|exact Hh].
Defined.

(** A full disk.  With the smaller buffer [write] raises; with the
    larger one [write] returns and [close] raises; either way the run
    raises, the file is closed, and what fitted is left in it. *)
Example truncated_on_full_disk :
  fst (run Worlds.full) = Raise OSError_ENOSPC ∧
  fst (run Worlds.full_at_close) = Raise OSError_ENOSPC ∧
  fst ((os_makedirs docs_name true >>
        do f <- open out_name "w"; write f xml) Worlds.full) =
    Raise OSError_ENOSPC ∧
  fst ((os_makedirs docs_name true >>
        do f <- open out_name "w"; write f xml) Worlds.full_at_close) =
    Ok (String.length xml) ∧
  files (snd (run Worlds.full)) !! out = Some (File (take 100 document_bytes)) ∧
  files (snd (run Worlds.full_at_close)) !! out =
    Some (File (take 100 document_bytes)) ∧
  opened (snd (run Worlds.full)) = [] ∧
  opened (snd (run Worlds.full_at_close)) = [] ∧
  stdout (snd (run Worlds.full)) = "" ∧
  stdout (snd (run Worlds.full_at_close)) = "" ∧
  history (snd (run Worlds.full)) = take 4 script_calls ∧
  history (snd (run Worlds.full_at_close)) = take 4 script_calls.
Proof. split_and!; vm_compute; reflexivity. Qed.

End ScriptFacts.

(** ** More about a run: when it goes well, and what it leaves *)

Module RunFacts.
Import Posix Script Behaviour PosixFacts ScriptFacts.
Local Open Scope posix_scope.
Local Open Scope nat_scope.

Section Emit.

Variables dname oname msg text : string.
Hypothesis text_plain : plain text = true.
Variable leaf : string.
Hypothesis out_in_dir : path_of oname = leaf :: path_of dname.

Local Abbreviation emit := (Behaviour.emit dname oname msg text).
Local Abbreviation calls := (Behaviour.calls dname oname msg text).
Local Abbreviation called := (Behaviour.called dname oname msg text).
Local Abbreviation ending := (Behaviour.ending dname oname msg text).
Local Abbreviation dirs_added := (Behaviour.dirs_added dname).
Local Abbreviation can_emit := (Behaviour.can_emit dname oname text).

(** What the successful [open] of an ending says about the world the run
    started in. *)
Lemma opened_from (w : world) (fs1 : gmap path entry) (f : file_object) (w2 : world) :
  makedirs (path_of dname) true (called 1 w) = (Ok tt, with_files fs1 (called 1 w)) →
  open_w (path_of oname) (with_files fs1 (called 2 w)) = (Ok f, w2) →
  fs1 !! path_of oname = files w !! path_of oname ∧
  ((files w !! path_of oname = None ∧ free_space w2 = free_space w ∧
    path_of dname ∉ readonly w) ∨
   (∃ old, files w !! path_of oname = Some (File old) ∧
           free_space w2 = free_space w + length old ∧
           path_of oname ∉ readonly w)).
Proof.
  intros Hm Ho.
  apply makedirs_dirs_added in Hm as (Hadd & _). simpl in Hadd.
  assert (Hl : fs1 !! path_of oname = files w !! path_of oname).
  { destruct (Hadd (path_of oname)) as [Hq|(_ & _ & Hq)]; [done|].
    by apply (out_not_above_dir _ _ _ out_in_dir) in Hq. }
  split; [done|].
  apply open_w_ok in Ho as (_ & Hup & n & -> & Hcase).
  revert Hup Hcase. world_fields. rewrite out_in_dir. unfold parent. simpl tail.
  intros Hup. rewrite stat_cons, Hup, <- out_in_dir, Hl.
  intros [(Hn & -> & Hro)|(old & Hs & -> & Hro)].
  - left. unfold Behaviour.called. world_fields. split_and!; [done|lia|done].
  - right. exists old. unfold Behaviour.called. world_fields. by split_and!.
Qed.

Lemma emit_succeeds_inv (w : world) :
  fst (emit w) = Ok tt → can_emit w = true.
Proof.
  intros Hok. pose proof (emit_ending dname oname msg text text_plain w) as He.
  destruct (emit w) as [r w'] eqn:E. simpl in Hok, He. subst r.
  inversion He as [| | |fs1 f w2 Hm Ho Hle Hw']; subst; clear He.
  unfold Behaviour.can_emit.
  apply makedirs_ok_creatable in Hm as Hc.
  rewrite (creatable_ext (called 1 w) w) in Hc by done. rewrite Hc.
  rewrite raw_bytes_length in Hle.
  destruct (opened_from w fs1 f w2 Hm Ho) as
    (_ & [(-> & Hsp & Hro)|(old & -> & Hsp & Hro)]).
  - rewrite bool_decide_false by done. simpl. apply Nat.leb_le. lia.
  - rewrite bool_decide_false by done. simpl. apply Nat.leb_le. lia.
Qed.

(** The file system an ending leaves: the directories [makedirs] added,
    and on top of that, once [open] went well, the text, or what fitted of
    it, in the place of the output. *)
Lemma ending_files (w : world) (r : result unit) (w' : world) :
  ending w r w' →
  (argv w' = argv w ∧ environ w' = environ w ∧
   locale_encoding w' = locale_encoding w ∧ buffer_size w' = buffer_size w ∧
   readonly w' = readonly w) ∧
  ∃ fs1, dirs_added (files w) fs1 ∧
    ((∃ e, r = Raise e ∧ files w' = fs1) ∨
     (files w !! path_of oname ≠ Some Dir ∧
      ((r = Ok tt ∧
        files w' = <[path_of oname := File (raw_bytes text)]> fs1) ∨
       (r = Raise OSError_ENOSPC ∧
        ∃ k, k < length (raw_bytes text) ∧
             files w' = <[path_of oname := File (take k (raw_bytes text))]> fs1)))).
Proof.
  intros [e w1 Hm|e fs1 Hm Ho|fs1 f w2 Hm Ho Hlt|fs1 f w2 Hm Ho Hle].
  - pose proof (makedirs_grows (path_of dname) true (called 1 w)) as [E _].
    rewrite Hm in E. simpl in E.
    apply makedirs_dirs_added in Hm as (Hadd & _).
    split; [rewrite E; by world_fields|].
    exists (files w1). split; [done|]. left. eauto.
  - apply makedirs_dirs_added in Hm as (Hadd & _). simpl in Hadd.
    split; [by world_fields|].
    exists fs1. split; [done|]. left. eauto.
  - destruct (opened_from w fs1 f w2 Hm Ho) as (_ & Hcase).
    apply makedirs_dirs_added in Hm as (Hadd & _). simpl in Hadd.
    split; [by world_fields|].
    exists fs1. split; [done|]. right. split.
    + destruct Hcase as [(-> & _)|(old & -> & _)]; done.
    + right. split; [done|]. exists (free_space w2). by world_fields.
  - destruct (opened_from w fs1 f w2 Hm Ho) as (_ & Hcase).
    apply makedirs_dirs_added in Hm as (Hadd & _). simpl in Hadd.
    split; [by world_fields|].
    exists fs1. split; [done|]. right. split.
    + destruct Hcase as [(-> & _)|(old & -> & _)]; done.
    + left. by world_fields.
Qed.

(** Whatever way a run ends, it touches nothing but the output and the
    missing directories above it. *)
Lemma emit_frame (w : world) (q : path) :
  (q ≠ path_of oname →
     files (snd (emit w)) !! q = files w !! q ∨
     (files w !! q = None ∧ files (snd (emit w)) !! q = Some Dir ∧
      q `suffix_of` path_of dname)) ∧
  (files w !! q = Some Dir → files (snd (emit w)) !! q = Some Dir) ∧
  (is_Some (files w !! q) → is_Some (files (snd (emit w)) !! q)) ∧
  argv (snd (emit w)) = argv w ∧ environ (snd (emit w)) = environ w ∧
  locale_encoding (snd (emit w)) = locale_encoding w ∧
  buffer_size (snd (emit w)) = buffer_size w ∧
  readonly (snd (emit w)) = readonly w.
Proof.
  destruct (ending_files w _ _ (emit_ending dname oname msg text text_plain w))
    as ((Ha & He & Hl & Hb & Hr) & fs1 & Hadd & Hcase).
  split_and!; try done.
  - intros Hq.
    destruct Hcase as [(e & _ & ->)|(_ & [(_ & ->)|(_ & k & _ & ->)])];
      rewrite ?lookup_insert_ne by done; apply Hadd.
  - intros Hd.
    assert (Hfs : fs1 !! q = Some Dir).
    { destruct (Hadd q) as [->|(Hn & _)]; congruence. }
    destruct Hcase as [(e & _ & ->)|(Hnd & Hcase)]; [done|].
    assert (q ≠ path_of oname) by congruence.
    destruct Hcase as [(_ & ->)|(_ & k & _ & ->)];
      by rewrite lookup_insert_ne.
  - intros Hs.
    assert (Hfs : is_Some (fs1 !! q)).
    { destruct (Hadd q) as [->|(_ & -> & _)]; eauto. }
    destruct Hcase as [(e & _ & ->)|(_ & [(_ & ->)|(_ & k & _ & ->)])];
      [done|..];
      (destruct (decide (path_of oname = q)) as [<-|Hne];
       [rewrite lookup_insert_eq; eauto|by rewrite lookup_insert_ne]).
Qed.

(** What is in the place of the output after a run: the document when
    the run went well; when it raised, what was there before, or, on a
    full disk, a part of the document that is not all of it. *)
Lemma emit_output (w : world) :
  (fst (emit w) = Ok tt ∧
   files (snd (emit w)) !! path_of oname = Some (File (raw_bytes text))) ∨
  (∃ e, fst (emit w) = Raise e ∧
        (files (snd (emit w)) !! path_of oname = files w !! path_of oname ∨
         (e = OSError_ENOSPC ∧
          ∃ k, k < length (raw_bytes text) ∧
               files (snd (emit w)) !! path_of oname =
                 Some (File (take k (raw_bytes text)))))).
Proof.
  destruct (ending_files w _ _ (emit_ending dname oname msg text text_plain w))
    as (_ & fs1 & Hadd & Hcase).
  destruct Hcase as [(e & -> & ->)|(_ & [(-> & ->)|(-> & k & Hk & ->)])].
  - right. exists e. split; [done|]. left.
    destruct (Hadd (path_of oname)) as [Hq|(_ & _ & Hq)]; [done|].
    by apply (out_not_above_dir _ _ _ out_in_dir) in Hq.
  - left. by rewrite lookup_insert_eq.
  - right. exists OSError_ENOSPC. split; [done|]. right. split; [done|].
    exists k. by rewrite lookup_insert_eq.
Qed.

(** A second run, after one that went well: it goes well too unless the
    output may not be written, in which case [open] raises and nothing
    changes; and when it goes well it takes no more room on the disk. *)
Lemma emit_second (w : world) :
  fst (emit w) = Ok tt →
  (fst (emit (snd (emit w))) = Ok tt ↔ path_of oname ∉ readonly w) ∧
  (path_of oname ∈ readonly w →
     fst (emit (snd (emit w))) = Raise PermissionError) ∧
  (fst (emit (snd (emit w))) = Ok tt →
     free_space (snd (emit (snd (emit w)))) = free_space (snd (emit w)) ∧
     stdout (snd (emit (snd (emit w)))) =
       (stdout w +:+ msg +:+ newline) +:+ msg +:+ newline).
Proof.
  intros Hok.
  destruct (emit_done dname oname msg text text_plain leaf out_in_dir w Hok)
    as (Hdirs & Hfile & _ & Hout & _).
  destruct (emit_frame w []) as (_ & _ & _ & _ & _ & _ & _ & Hro).
  set (w1 := snd (emit w)) in *. clearbody w1.
  assert (Hl : files w1 !! path_of oname = Some (File (raw_bytes text))).
  { rewrite out_in_dir in Hfile |- *. by apply stat_lookup in Hfile as [_ ?]. }
  assert (Hcan : can_emit w1 = negb (bool_decide (path_of oname ∈ readonly w))).
  { unfold Behaviour.can_emit.
    rewrite stat_dir_creatable by by apply Hdirs.
    rewrite Hl, Hro, raw_bytes_length.
    replace (String.length text <=? free_space w1 + String.length text)
      with true by (symmetry; apply Nat.leb_le; lia).
    by rewrite andb_true_r. }
  assert (Hiff : fst (emit w1) = Ok tt ↔ path_of oname ∉ readonly w).
  { split.
    - intros H2. apply (emit_succeeds_inv) in H2. rewrite Hcan in H2.
      by apply negb_true_iff, bool_decide_eq_false in H2.
    - intros Hn.
      apply (emit_succeeds dname oname msg text text_plain leaf out_in_dir).
      rewrite Hcan. by rewrite bool_decide_false. }
  split_and!; [done| |].
  - intros Hin.
    assert (Hdir : stat (files w1) (path_of dname) = Some Dir) by by apply Hdirs.
    assert (He : ending w1 (Raise PermissionError) (with_files (files w1) (called 2 w1))).
    { apply EndOpen.
      - replace (with_files (files w1) (called 1 w1)) with (called 1 w1)
          by by destruct w1.
        by apply makedirs_existing.
      - unfold open_w. world_fields. rewrite out_in_dir. unfold parent.
        simpl tail. rewrite stat_cons, Hdir, <- out_in_dir, Hl.
        unfold Behaviour.called. world_fields. rewrite Hro.
        by rewrite bool_decide_true. }
    apply (ending_emit dname oname msg text text_plain) in He. by rewrite He.
  - intros H2.
    destruct (emit_done dname oname msg text text_plain leaf out_in_dir w1 H2)
      as (_ & _ & _ & Hout2 & _).
    split; [|by rewrite Hout2, Hout].
    pose proof (emit_ending dname oname msg text text_plain w1) as He.
    destruct (emit w1) as [r w2] eqn:E. simpl in H2, He |- *. subst r.
    inversion He as [| | |fs1 f w3 Hm Ho Hle Hw']; subst; clear He.
    world_fields.
    destruct (opened_from w1 fs1 f w3 Hm Ho) as
      (_ & [(Hn & _)|(old & Hold & -> & _)]); [congruence|].
    rewrite Hl in Hold. injection Hold as <-. lia.
Qed.

End Emit.

(** X3. What is in the place of the output after a run: the document,
    when the run went well; when it raised, either what was there before
    (the directories could not be made, or the file not opened), or, on a
    full disk, a part of the document that is not all of it.  What was
    there before is never mixed with the document. *)
Theorem output_is_document_or_old_or_part (w : world) :
  (fst (run w) = Ok tt ∧
   files (snd (run w)) !! out = Some (File document_bytes)) ∨
  (∃ e, fst (run w) = Raise e ∧
        (files (snd (run w)) !! out = files w !! out ∨
         (e = OSError_ENOSPC ∧
          ∃ k, k < length document_bytes ∧
               files (snd (run w)) !! out =
                 Some (File (take k document_bytes))))).
Proof.
  rewrite run_emit. apply (emit_output _ _ _ _ xml_plain _ out_in_docs).
Qed.

(** X4. Running the script again after a run that went well: the second
    run goes well exactly when the output file may be written; when it
    may not, [open] raises [PermissionError]; and when the second run
    goes well it leaves the free space of the disk as the first left it,
    and a second confirmation after the first. *)
Theorem second_run (w : world) :
  fst (run w) = Ok tt →
  (fst (run (snd (run w))) = Ok tt ↔ out ∉ readonly w) ∧
  (out ∈ readonly w → fst (run (snd (run w))) = Raise PermissionError) ∧
  (fst (run (snd (run w))) = Ok tt →
     free_space (snd (run (snd (run w)))) = free_space (snd (run w)) ∧
     stdout (snd (run (snd (run w)))) =
       (stdout w +:+ confirmation +:+ newline) +:+ confirmation +:+ newline).
Proof.
  rewrite !run_emit. apply (emit_second _ _ _ _ xml_plain _ out_in_docs).
Qed.

(** X4 on a disk where the output, once created, may not be written
    again, and on an empty disk. *)
Lemma second_run_on_sealed_disk :
  fst (run MoreWorlds.sealed) = Ok tt ∧
  out ∈ readonly MoreWorlds.sealed ∧
  fst (run (snd (run MoreWorlds.sealed))) = Raise PermissionError ∧
  fst (run Worlds.fresh) = Ok tt ∧
  fst (run (snd (run Worlds.fresh))) = Ok tt.
Proof.
  assert (H1 : fst (run MoreWorlds.sealed) = Ok tt) by (vm_compute; reflexivity).
  assert (H2 : out ∈ readonly MoreWorlds.sealed)
    by (apply (bool_decide_eq_true_1 (out ∈ readonly MoreWorlds.sealed));
        vm_compute; reflexivity).
  assert (H3 : fst (run Worlds.fresh) = Ok tt) by (vm_compute; reflexivity).
  assert (H4 : out ∉ readonly Worlds.fresh)
    by (apply (bool_decide_eq_false_1 (out ∈ readonly Worlds.fresh));
        vm_compute; reflexivity).
  destruct (second_run MoreWorlds.sealed H1) as (_ & Hp & _).
  destruct (second_run Worlds.fresh H3) as ([_ Hq] & _).
  split_and!; [exact H1|exact H2|exact (Hp H2)|exact H3|exact (Hq H4)].
Defined.

(** The three cases of X3 on the sample worlds. *)
Example output_cases :
  files (snd (run Worlds.stale)) !! out = Some (File document_bytes) ∧
  fst (run MoreWorlds.blocked) = Raise NotADirectoryError ∧
  files (snd (run MoreWorlds.blocked)) !! out = None ∧
  fst (run Worlds.full) = Raise OSError_ENOSPC ∧
  files (snd (run Worlds.full)) !! out = Some (File (take 100 document_bytes)).
Proof. split_and!; vm_compute; reflexivity. Qed.

End RunFacts.

(** ** Properties of the picture *)

Module LayoutFacts.
Import Reader Diagram Layout DiagramFacts.
Local Open Scope nat_scope.

Lemma ids_cons (c : element) (cs : list element) :
  ids (c :: cs) = (ids [c] ++ ids cs)%list.
Proof. unfold ids. simpl. by destruct (attr "id" c). Qed.

Lemma refers_back_sound (seen : list string) (c : element) (k v : string) :
  refers_back seen c = true → k ∈ references → attr k c = Some v → v ∈ seen.
Proof.
  unfold refers_back. intros H Hk Ha.
  rewrite forallb_forall in H. apply list_elem_of_In in Hk.
  specialize (H k Hk). rewrite Ha in H. by apply mem_elem_of.
Qed.

(** A list of cells read front to back, each naming only cells already
    seen. *)
Lemma declared_before_sound (cs : list element) (seen : list string) :
  declared_before seen cs = true →
  ∀ i c k v, cs !! i = Some c → k ∈ references → attr k c = Some v →
             v ∈ (seen ++ ids (take i cs))%list.
Proof.
  revert seen. induction cs as [|a cs IH]; intros seen H i c k v Hi Hk Ha.
  - by rewrite lookup_nil in Hi.
  - simpl in H. apply andb_true_iff in H as [Ha0 Hrest].
    destruct i as [|i]; simpl in Hi.
    + injection Hi as ->. apply elem_of_app. left.
      by apply (refers_back_sound seen c k v).
    + simpl take. rewrite ids_cons, app_assoc. by apply (IH _ Hrest i c k v).
Qed.

Lemma pairwise_sound (f : element → element → bool) (l : list element) :
  pairwise f l = true →
  ∀ i j n m, l !! i = Some n → l !! j = Some m → i < j → f n m = true.
Proof.
  induction l as [|x l IH]; intros H i j n m Hi Hj Hlt.
  - by rewrite lookup_nil in Hi.
  - simpl in H. apply andb_true_iff in H as [Hx Hl].
    destruct j as [|j]; [lia|]. simpl in Hj.
    destruct i as [|i]; simpl in Hi.
    + injection Hi as ->. rewrite forallb_forall in Hx. apply Hx.
      apply list_elem_of_In. by apply (list_elem_of_lookup_2 l j).
    + apply (IH Hl i j); [done..|lia].
Qed.

Lemma apart_b_sound (a b : box) : apart_b a b = true → apart a b.
Proof.
  unfold apart_b, apart. rewrite !orb_true_iff, !Nat.leb_le. tauto.
Qed.

Lemma apart_sym (a b : box) : apart a b → apart b a.
Proof. unfold apart. tauto. Qed.

Lemma clear_of_b_sound (n m : element) : clear_of_b n m = true → clear_of n m.
Proof.
  unfold clear_of_b, clear_of. intros H Hp.
  rewrite bool_decide_true in H by done. simpl in H.
  destruct (box_of n) as [a|], (box_of m) as [b|]; try discriminate.
  exists a, b. split_and!; [done..|]. by apply apart_b_sound.
Qed.

Lemma clear_of_sym (n m : element) : clear_of n m → clear_of m n.
Proof.
  unfold clear_of. intros H Hp. destruct (H (eq_sym Hp)) as (a & b & Ha & Hb & Hab).
  exists b, a. split_and!; [done..|]. by apply apart_sym.
Qed.

Lemma placed_b_sound (n : element) : placed_b n = true → placed n.
Proof.
  unfold placed_b, placed.
  destruct (box_of n) as [b|]; [|discriminate].
  destruct (room n) as [[[W H] T]|]; [|discriminate].
  rewrite !andb_true_iff, !Nat.leb_le, !Nat.ltb_lt.
  intros ((((H1 & H2) & H3) & H4) & H5). by exists b, W, H, T.
Qed.

Lemma node_drawn_b_sound (n : element) : node_drawn_b n = true → node_drawn n.
Proof.
  unfold node_drawn_b, node_drawn.
  destruct (geometry n) as [g|]; [|discriminate].
  destruct (box_of n) as [b|]; [|discriminate].
  intros H. apply bool_decide_eq_true_1 in H. by exists g, b.
Qed.

Lemma edge_drawn_b_sound (e : element) : edge_drawn_b e = true → edge_drawn e.
Proof.
  unfold edge_drawn_b, edge_drawn.
  destruct (geometry e) as [g|]; [|discriminate].
  rewrite andb_true_iff. intros [H1 H2].
  apply bool_decide_eq_true_1 in H1, H2. by exists g.
Qed.

Lemma forallb_lookup (g : element → bool) (l : list element) (i : nat) (c : element) :
  forallb g l = true → l !! i = Some c → g c = true.
Proof.
  intros H Hi. rewrite forallb_forall in H. apply H.
  apply list_elem_of_In. by apply (list_elem_of_lookup_2 l i).
Qed.

Lemma under_root_b_sound (c : element) : under_root_b c = true → under_root c.
Proof.
  unfold under_root_b, under_root.
  destruct (owners (length cells) c) as [l|]; [|discriminate].
  intros H. apply bool_decide_eq_true_1 in H. by exists l.
Qed.

(** X5. The owners form a tree under the root, and the cells are declared
    before they are used.  The document opens with the root cell ["0"],
    which has no owner, and the canvas ["1"], owned by the root.  Every
    cell after the first has an owner.  The owner of a cell, and the source
    and target of an edge, are identifiers of cells that come earlier in
    the document, so a reader can build the graph in one pass.  And from
    every cell, following the owners ends at the root. *)
Theorem cells_declared_before_use :
  ids (take 2 cells) = ["0"; canvas] ∧
  attr "parent" (cell_at 0) = None ∧
  attr "parent" (cell_at 1) = Some "0" ∧
  (∀ i c k v, cells !! i = Some c → k ∈ references → attr k c = Some v →
              v ∈ ids (take i cells)) ∧
  (∀ i c, cells !! S i = Some c →
          ∃ p, attr "parent" c = Some p ∧ p ∈ ids (take (S i) cells)) ∧
  Forall under_root cells.
Proof.
  assert (Hback : ∀ i c k v, cells !! i = Some c → k ∈ references →
                    attr k c = Some v → v ∈ ids (take i cells)).
  { intros i c k v. apply (declared_before_sound cells []).
    vm_compute. reflexivity. }
  refine (conj _ (conj _ (conj _ (conj Hback (conj _ _))))).
  - vm_compute. reflexivity.
  - vm_compute. reflexivity.
  - vm_compute. reflexivity.
  - intros i c Hc.
    assert (Ho : owned c = true).
    { apply (forallb_lookup owned (drop 1 cells) i); [vm_compute; reflexivity|].
      rewrite lookup_drop. exact Hc. }
    apply bool_decide_eq_true_1 in Ho. destruct Ho as [p Hp].
    exists p. split; [exact Hp|].
    apply (Hback (S i) c "parent" p Hc); [|exact Hp].
    apply mem_elem_of. vm_compute. reflexivity.
  - apply (forallb_Forall under_root_b); [apply under_root_b_sound|].
    vm_compute. reflexivity.
Qed.

(** X6. Every node and every edge of the document has exactly one
    geometry, marked as the geometry of its cell: that of a node gives
    [x], [y], [width] and [height] as decimal numbers, that of an edge is
    relative. *)
Theorem cells_have_geometry :
  Forall node_drawn nodes ∧ Forall edge_drawn edges.
Proof.
  split.
  - apply (forallb_Forall node_drawn_b); [apply node_drawn_b_sound|].
    vm_compute. reflexivity.
  - apply (forallb_Forall edge_drawn_b); [apply edge_drawn_b_sound|].
    vm_compute. reflexivity.
Qed.

(** X7. Every node is drawn with a size inside the room it is placed
    in: a node on the canvas inside the page, whose size the graph model
    gives; a node of a container inside the box of the container and
    below its header.  And two nodes of the same container are drawn
    apart: their boxes do not overlap. *)
Theorem nodes_placed_apart :
  Forall placed nodes ∧
  ∀ i j n m, nodes !! i = Some n → nodes !! j = Some m → i ≠ j →
             clear_of n m.
Proof.
  split.
  - apply (forallb_Forall placed_b); [apply placed_b_sound|].
    vm_compute. reflexivity.
  - assert (H : pairwise clear_of_b nodes = true) by (vm_compute; reflexivity).
    intros i j n m Hi Hj Hne.
    destruct (Nat.lt_total i j) as [Hlt|[Heq|Hlt]].
    + apply clear_of_b_sound. exact (pairwise_sound _ _ H i j n m Hi Hj Hlt).
    + exfalso. exact (Hne Heq).
    + apply clear_of_sym, clear_of_b_sound.
      exact (pairwise_sound _ _ H j i m n Hj Hi Hlt).
Qed.

(** X8. Every edge joins two different nodes, and no two edges join the
    same source to the same target.  Every node that owns no other node
    is an end of some edge, and no edge ends at a node that owns
    others: the edges run between the boxes, never to a container. *)
Theorem edges_join_leaves :
  Forall (λ e, ∃ s t, joined e = (Some s, Some t) ∧ s ≠ t) edges ∧
  NoDup (joined <$> edges) ∧
  Forall (λ i, i ∈ containers ∨ i ∈ endpoints) node_ids ∧
  Forall (λ i, i ∉ containers) endpoints.
Proof.
  split_and!.
  - apply (forallb_Forall
             (λ e, match joined e with
                   | (Some s, Some t) => negb (String.eqb s t)
                   | _ => false
                   end)); [|vm_compute; reflexivity].
    intros e. destruct (joined e) as [[s|] [t|]]; try discriminate.
    intros H. exists s, t. split; [done|].
    intros ->. by rewrite String.eqb_refl in H.
  - apply (bool_decide_eq_true_1 (NoDup (joined <$> edges))).
    vm_compute. reflexivity.
  - apply (forallb_Forall (λ i, mem i containers || mem i endpoints));
      [|vm_compute; reflexivity].
    intros i H. apply orb_true_iff in H as [H|H]; [left|right];
      by apply mem_elem_of.
  - apply (forallb_Forall (λ i, negb (mem i containers)));
      [|vm_compute; reflexivity].
    intros i H Hin. apply elem_of_mem in Hin. rewrite Hin in H.
    discriminate H.
Qed.

(** X5 at the first edge, which names a node of the container and is
    owned by the canvas, and at the first node of the container, whose
    owners are the container, the canvas and the root. *)
Lemma first_edge_refers_back :
  cells !! 18 = Some (cell_at 18) ∧
  attr "target" (cell_at 18) = Some "proxy_pg" ∧
  "proxy_pg" ∈ ids (take 18 cells) ∧
  (∃ p, attr "parent" (cell_at 18) = Some p ∧ p ∈ ids (take 18 cells)) ∧
  under_root (cell_at 18).
Proof.
  destruct cells_declared_before_use as (_ & _ & _ & H & Ho & Hr).
  assert (Hc : cells !! 18 = Some (cell_at 18)) by (vm_compute; reflexivity).
  assert (Hk : "target" ∈ references)
    by (apply mem_elem_of; vm_compute; reflexivity).
  assert (Ha : attr "target" (cell_at 18) = Some "proxy_pg")
    by (vm_compute; reflexivity).
  rewrite Forall_lookup in Hr.
  split_and!;
    [exact Hc|exact Ha|exact (H 18 _ "target" "proxy_pg" Hc Hk Ha)
    |exact (Ho 17 _ Hc)|exact (Hr 18 _ Hc)].
Defined.

(** X7 at the first two nodes, which are both on the canvas. *)
Lemma first_nodes_apart :
  nodes !! 0 = Some (node_at 0) ∧ nodes !! 1 = Some (node_at 1) ∧
  attr "parent" (node_at 0) = attr "parent" (node_at 1) ∧
  ∃ a b, box_of (node_at 0) = Some a ∧ box_of (node_at 1) = Some b ∧ apart a b.
Proof.
  destruct nodes_placed_apart as [_ H].
  assert (H0 : nodes !! 0 = Some (node_at 0)) by (vm_compute; reflexivity).
  assert (H1 : nodes !! 1 = Some (node_at 1)) by (vm_compute; reflexivity).
  assert (Hne : 0 ≠ 1) by lia.
  assert (Hp : attr "parent" (node_at 0) = attr "parent" (node_at 1))
    by (vm_compute; reflexivity).
  split_and!; [exact H0|exact H1|exact Hp|exact (H 0 1 _ _ H0 H1 Hne Hp)].
Defined.

End LayoutFacts.
